(** * Shallow embedding of the conversation engine of celeride-server

    Sources embedded here:
    - [src/context-manager.js]: the session store [ContextManager];
    - [src/unnamed/part_002] (the AI agent module): the tools [agentTools]
      and the agent loop [AIAgent.processQuery] / [AIAgent.executeTool];
    - [src/server.js]: [parseBusStops], the [ai_chat_message] socket
      handler and the conversation endpoints.

    Modelling conventions.
    - JavaScript values are [jsval].  A number is kept as the decimal
      literal [m * 10^e] it was written as (JSON text, [Date.now()]
      integers); the host's number formatting is a section variable.
    - A JavaScript string is modelled as a Rocq [string]: one [ascii] per
      UTF-16 code unit, so the model covers code units below 256.
    - [Date.now()], [new Date().toISOString()] and [toLocaleString] are
      inputs of the operations that read the clock.
    - Thrown exceptions are the [Throw] outcome of a small state and
      exception monad. *)

From Stdlib Require Import Ascii String QArith Qround.
From Stdlib Require Import Floats.
From Stdlib Require Import DecimalString.
From stdpp Require Import base gmap strings list.

Open Scope string_scope.
#[local] Set Warnings "-register-all".

(* ------------------------------------------------------------------ *)
(** ** JavaScript values and JSON *)

Inductive jsval : Type :=
| JUndefined
| JNull
| JBool (b : bool)
| JNum (m e : Z)               (* the number m * 10^e *)
| JStr (s : string)
| JArr (xs : list jsval)
| JObj (fs : list (string * jsval)).

(** Own property lookup on an object's property list (keys are unique). *)
Fixpoint obj_get (fs : list (string * jsval)) (k : string) : option jsval :=
  match fs with
  | [] => None
  | (k', v) :: fs' => if String.eqb k' k then Some v else obj_get fs' k
  end.

(** [o[k] = v]: an existing property keeps its position, a new one is
    appended (insertion order of JavaScript objects). *)
Fixpoint obj_set (fs : list (string * jsval)) (k : string) (v : jsval)
  : list (string * jsval) :=
  match fs with
  | [] => [(k, v)]
  | (k', v') :: fs' =>
      if String.eqb k' k then (k', v) :: fs' else (k', v') :: obj_set fs' k v
  end.

(** [v.k] for a value that is not [null] or [undefined]. *)
Definition get (v : jsval) (k : string) : jsval :=
  match v with
  | JObj fs => default JUndefined (obj_get fs k)
  | _ => JUndefined
  end.

(** A decimal literal denotes the double 0 when it is 0 or when its
    magnitude is at most 2^-1075 (it rounds to zero, ties to even). *)
Definition num_is_zero (m e : Z) : bool :=
  (m =? 0)%Z || ((e <? 0)%Z && (Z.abs m * 2 ^ 1075 <=? 10 ^ (- e))%Z).

(** ToBoolean. *)
Definition truthy (v : jsval) : bool :=
  match v with
  | JUndefined | JNull => false
  | JBool b => b
  | JNum m e => negb (num_is_zero m e)
  | JStr s => negb (String.eqb s EmptyString)
  | JArr _ | JObj _ => true
  end.

(** The numeric value of a number, as a rational. *)
Definition num_Q (m e : Z) : Q :=
  if (0 <=? e)%Z then inject_Z (m * 10 ^ e) else Qmake m (Z.to_pos (10 ^ (- e))).

(** The double-quote code unit. *)
Definition dquote : ascii := ascii_of_nat 34.

Definition hex_digit (n : nat) : ascii :=
  ascii_of_nat (if Nat.ltb n 10 then 48 + n else 87 + n).

(** The escaping of JSON.stringify (QuoteJSONString) on one code unit. *)
Definition json_escape_char (c : ascii) : string :=
  let n := nat_of_ascii c in
  if Nat.eqb n 34 then String "\" (String dquote EmptyString)
  else if Nat.eqb n 92 then "\\"
  else if Nat.eqb n 8 then "\b"
  else if Nat.eqb n 12 then "\f"
  else if Nat.eqb n 10 then "\n"
  else if Nat.eqb n 13 then "\r"
  else if Nat.eqb n 9 then "\t"
  else if Nat.ltb n 32 then
    String "\" (String "u" (String "0" (String "0"
      (String (hex_digit (n / 16)) (String (hex_digit (n mod 16)) EmptyString)))))
  else String c EmptyString.

Fixpoint json_quote_chars (s : string) : string :=
  match s with
  | EmptyString => EmptyString
  | String c s' => json_escape_char c ++ json_quote_chars s'
  end.

Definition json_quote (s : string) : string :=
  String dquote (json_quote_chars s ++ String dquote EmptyString).

Section Json.

(** JSON.stringify of the number written [m * 10^e] (the host's
    Number::toString, or [null] when the number is not finite). *)
Variable number_json : Z -> Z -> string.

(** JSON.stringify: [None] is the result [undefined]; an [undefined]
    property is left out, an [undefined] array element prints [null]. *)
Fixpoint json_stringify (v : jsval) : option string :=
  match v with
  | JUndefined => None
  | JNull => Some "null"
  | JBool b => Some (if b then "true" else "false")
  | JNum m e => Some (number_json m e)
  | JStr s => Some (json_quote s)
  | JArr xs =>
      Some ("[" ++ String.concat ","
              (map (fun x => default "null" (json_stringify x)) xs) ++ "]")
  | JObj fs =>
      let fix props (fs : list (string * jsval)) : list string :=
        match fs with
        | [] => []
        | (k, x) :: fs' =>
            match json_stringify x with
            | Some t => (json_quote k ++ ":" ++ t) :: props fs'
            | None => props fs'
            end
        end in
      Some ("{" ++ String.concat "," (props fs) ++ "}")
  end.

End Json.

(** *** JSON.parse *)

Definition is_json_ws (c : ascii) : bool :=
  let n := nat_of_ascii c in
  Nat.eqb n 32 || Nat.eqb n 9 || Nat.eqb n 10 || Nat.eqb n 13.

Fixpoint skip_ws (s : string) : string :=
  match s with
  | String c s' => if is_json_ws c then skip_ws s' else s
  | EmptyString => s
  end.

Fixpoint strip_prefix (p s : string) : option string :=
  match p, s with
  | EmptyString, _ => Some s
  | String a p', String b s' => if Ascii.eqb a b then strip_prefix p' s' else None
  | String _ _, EmptyString => None
  end.

Definition hex_val (c : ascii) : option nat :=
  let n := nat_of_ascii c in
  if (Nat.leb 48 n) && (Nat.leb n 57) then Some (n - 48)
  else if (Nat.leb 97 n) && (Nat.leb n 102) then Some (n - 87)
  else if (Nat.leb 65 n) && (Nat.leb n 70) then Some (n - 55)
  else None.

(** The code unit of a [\uXXXX] escape.  Units above 255 are outside the
    modelled range and are all read as the code unit 26 (SUB). *)
Definition unit_of_hex (a b c d : ascii) : option ascii :=
  match hex_val a, hex_val b, hex_val c, hex_val d with
  | Some a, Some b, Some c, Some d =>
      let n := ((a * 16 + b) * 16 + c) * 16 + d in
      Some (ascii_of_nat (if Nat.leb n 255 then n else 26))
  | _, _, _, _ => None
  end.

(** The body of a JSON string, after its opening quote: the decoded
    string and the text after the closing quote. *)
Fixpoint parse_str_body (s : string) : option (string * string) :=
  match s with
  | EmptyString => None
  | String c s' =>
      let n := nat_of_ascii c in
      if Nat.eqb n 34 then Some (EmptyString, s')
      else if Nat.ltb n 32 then None
      else if Nat.eqb n 92 then
        match s' with
        | String e s'' =>
            let k := nat_of_ascii e in
            let simple (u : nat) :=
              match parse_str_body s'' with
              | Some (d, r) => Some (String (ascii_of_nat u) d, r)
              | None => None
              end in
            if Nat.eqb k 34 then simple 34
            else if Nat.eqb k 92 then simple 92
            else if Nat.eqb k 47 then simple 47
            else if Nat.eqb k 98 then simple 8
            else if Nat.eqb k 102 then simple 12
            else if Nat.eqb k 110 then simple 10
            else if Nat.eqb k 114 then simple 13
            else if Nat.eqb k 116 then simple 9
            else if Nat.eqb k 117 then
              match s'' with
              | String h1 (String h2 (String h3 (String h4 r0))) =>
                  match unit_of_hex h1 h2 h3 h4, parse_str_body r0 with
                  | Some u, Some (d, r) => Some (String u d, r)
                  | _, _ => None
                  end
              | _ => None
              end
            else None
        | EmptyString => None
        end
      else
        match parse_str_body s' with
        | Some (d, r) => Some (String c d, r)
        | None => None
        end
  end.

Definition is_digit (c : ascii) : bool :=
  let n := nat_of_ascii c in (Nat.leb 48 n) && (Nat.leb n 57).

(** The longest prefix of decimal digits, and the rest. *)
Fixpoint take_digits (s : string) : string * string :=
  match s with
  | String c s' =>
      if is_digit c then let '(d, r) := take_digits s' in (String c d, r)
      else (EmptyString, s)
  | EmptyString => (EmptyString, EmptyString)
  end.

Fixpoint digits_value (acc : Z) (d : string) : Z :=
  match d with
  | String c d' => digits_value (acc * 10 + Z.of_nat (nat_of_ascii c - 48)) d'
  | EmptyString => acc
  end.

(** A JSON number [-?(0|[1-9][0-9]* )(.[0-9]+)?([eE][+-]?[0-9]+)?] *)
Definition parse_number (s : string) : option (jsval * string) :=
  let '(neg, s1) := match s with
                    | String "-" r => (true, r)
                    | _ => (false, s)
                    end in
  let '(ip, s2) := take_digits s1 in
  let int_ok := match ip with
                | EmptyString => false
                | String "0" EmptyString => true
                | String "0" _ => false
                | _ => true
                end in
  if negb int_ok then None else
  let frac := match s2 with
              | String "." r => let '(fp, r') := take_digits r in
                                match fp with
                                | EmptyString => None
                                | _ => Some (fp, r')
                                end
              | _ => Some (EmptyString, s2)
              end in
  match frac with
  | None => None
  | Some (fp, s3) =>
      let ex := match s3 with
                | String c r =>
                    if Ascii.eqb c "e" || Ascii.eqb c "E" then
                      let '(eneg, r1) := match r with
                                         | String "-" r' => (true, r')
                                         | String "+" r' => (false, r')
                                         | _ => (false, r)
                                         end in
                      let '(ed, r2) := take_digits r1 in
                      match ed with
                      | EmptyString => None
                      | _ => Some ((if eneg then - digits_value 0 ed
                                    else digits_value 0 ed)%Z, r2)
                      end
                    else Some (0%Z, s3)
                | EmptyString => Some (0%Z, s3)
                end in
      match ex with
      | None => None
      | Some (x, s4) =>
          let m := digits_value 0 (ip ++ fp) in
          Some (JNum (if neg then - m else m)%Z (x - Z.of_nat (String.length fp))%Z, s4)
      end
  end.

(** Recursive descent over a JSON text.  [fuel] bounds the nesting and
    the number of members; [json_parse] gives one unit per code unit of
    the text, and every step consumes at least one code unit.  Repeated
    keys keep the first position and the last value, as JSON.parse does. *)
Fixpoint parse_value (fuel : nat) (s : string) {struct fuel}
  : option (jsval * string) :=
  match fuel with
  | O => None
  | S f =>
      match skip_ws s with
      | String "{" r =>
          match skip_ws r with
          | String "}" r' => Some (JObj [], r')
          | _ => parse_members f r []
          end
      | String "[" r =>
          match skip_ws r with
          | String "]" r' => Some (JArr [], r')
          | _ => parse_elements f r []
          end
      | String c r =>
          if Nat.eqb (nat_of_ascii c) 34 then
            match parse_str_body r with
            | Some (d, r') => Some (JStr d, r')
            | None => None
            end
          else if Ascii.eqb c "t" then
            option_map (fun r' => (JBool true, r')) (strip_prefix "rue" r)
          else if Ascii.eqb c "f" then
            option_map (fun r' => (JBool false, r')) (strip_prefix "alse" r)
          else if Ascii.eqb c "n" then
            option_map (fun r' => (JNull, r')) (strip_prefix "ull" r)
          else if Ascii.eqb c "-" || is_digit c then parse_number (String c r)
          else None
      | EmptyString => None
      end
  end
(** [member (, member)* }] with [acc] the members read so far. *)
with parse_members (fuel : nat) (s : string) (acc : list (string * jsval))
  {struct fuel} : option (jsval * string) :=
  match fuel with
  | O => None
  | S f =>
      match skip_ws s with
      | String c r =>
          if Nat.eqb (nat_of_ascii c) 34 then
            match parse_str_body r with
            | Some (k, r1) =>
                match skip_ws r1 with
                | String ":" r2 =>
                    match parse_value f r2 with
                    | Some (v, r3) =>
                        let acc' := obj_set acc k v in
                        match skip_ws r3 with
                        | String "," r4 => parse_members f r4 acc'
                        | String "}" r4 => Some (JObj acc', r4)
                        | _ => None
                        end
                    | None => None
                    end
                | _ => None
                end
            | None => None
            end
          else None
      | EmptyString => None
      end
  end
(** [value (, value)* ]] with [acc] the elements read so far, reversed. *)
with parse_elements (fuel : nat) (s : string) (acc : list jsval)
  {struct fuel} : option (jsval * string) :=
  match fuel with
  | O => None
  | S f =>
      match parse_value f s with
      | Some (v, r1) =>
          match skip_ws r1 with
          | String "," r2 => parse_elements f r2 (v :: acc)
          | String "]" r2 => Some (JArr (rev (v :: acc)), r2)
          | _ => None
          end
      | None => None
      end
  end.

(** JSON.parse: [None] is a thrown SyntaxError. *)
Definition json_parse (text : string) : option jsval :=
  match parse_value (S (String.length text)) text with
  | Some (v, rest) =>
      match skip_ws rest with
      | EmptyString => Some v
      | _ => None
      end
  | None => None
  end.


(* ------------------------------------------------------------------ *)
(** ** Small helpers: decimal printing, outcomes *)

(** Number::toString of an integer below 10^21: its plain decimal form. *)
Definition int_to_string (z : Z) : string :=
  match z with
  | Z0 => "0"
  | Zpos p => NilZero.string_of_uint (Pos.to_uint p)
  | Zneg p => String "-" (NilZero.string_of_uint (Pos.to_uint p))
  end.

(** A computation that returns a value or throws. *)
Inductive outcome (A : Type) : Type :=
| Ok (a : A)
| Throw (msg : string).
Arguments Ok {A} a.
Arguments Throw {A} msg.

(** ToNumber on the values the code subtracts from [Date.now()]: numbers,
    [null] (0), booleans and [undefined] (NaN, here [None]).  Strings,
    arrays and objects are taken as NaN as well: the timestamps stored by
    the code are always numbers. *)
Definition js_to_number (v : jsval) : option Q :=
  match v with
  | JNum m e => Some (num_Q m e)
  | JNull => Some 0%Q
  | JBool b => Some (if b then 1%Q else 0%Q)
  | _ => None
  end.

(** [a > b] on numbers; any comparison with NaN is false. *)
Definition js_gt (a b : option Q) : bool :=
  match a, b with
  | Some x, Some y => negb (Qle_bool x y)
  | _, _ => false
  end.

Definition js_sub (a b : option Q) : option Q :=
  match a, b with
  | Some x, Some y => Some (x - y)%Q
  | _, _ => None
  end.

(* ------------------------------------------------------------------ *)
(** ** The session store: [class ContextManager] (src/context-manager.js) *)

(** A session object: its own properties in insertion order. *)
Abbreviation jsobj := (list (string * jsval)).

(** [this.userContexts], a Map from user id to session object. *)
Abbreviation store := (gmap string jsobj).

Definition maxContextAge : Z := 30 * 60 * 1000.
Definition maxHistoryLength : nat := 20.
Definition maxTokensPerContext : nat := 8000.

Section ContextManager.

(** Number::toString (template literals) and JSON.stringify of the number
    written [m * 10^e]: the host's number formatting. *)
Variable number_to_string : Z -> Z -> string.
Variable number_json : Z -> Z -> string.

(** ToString of a value in a template literal. *)
Fixpoint js_to_string (v : jsval) : string :=
  match v with
  | JUndefined => "undefined"
  | JNull => "null"
  | JBool b => if b then "true" else "false"
  | JNum m e => number_to_string m e
  | JStr s => s
  | JArr xs =>
      String.concat ","
        (map (fun x => match x with
                       | JUndefined | JNull => EmptyString
                       | _ => js_to_string x
                       end) xs)
  | JObj _ => "[object Object]"
  end.

(** [createNewContext(userId)] at time [now]. *)
Definition new_context (userId : string) (now : Z) : jsobj :=
  [("userId", JStr userId);
   ("userLocation", JNull);
   ("recentSearches", JArr []);
   ("activeBuses", JArr []);
   ("busRoutes", JArr []);
   ("busStops", JArr []);
   ("messageHistory", JArr []);
   ("conversationHistory", JArr []);
   ("sessionStartTime", JNum now 0);
   ("lastUpdated", JNum now 0);
   ("preferences", JObj [("preferredUnits", JStr "metric");
                         ("maxNearbyStops", JNum 5 0);
                         ("notificationRadius", JNum 500 0)])].

Definition createNewContext (st : store) (userId : string) (now : Z)
  : store * jsobj :=
  let context := new_context userId now in
  (<[userId := context]> st, context).

(** [Date.now() - context.lastUpdated > this.maxContextAge] *)
Definition is_expired (context : jsobj) (now : Z) : bool :=
  js_gt (js_sub (Some (inject_Z now)) (js_to_number (default JUndefined (obj_get context "lastUpdated"))))
        (Some (inject_Z maxContextAge)).

Definition getUserContext (st : store) (userId : string) (now : Z)
  : store * jsobj :=
  match st !! userId with
  | None => createNewContext st userId now
  | Some context =>
      if is_expired context now then createNewContext st userId now
      else (st, context)
  end.

(** The null and undefined check of [updateContext]. *)
Definition is_nullish (v : jsval) : bool :=
  match v with JUndefined | JNull => true | _ => false end.

(** [validUpdates]: the patch's properties whose value is neither
    undefined nor null. *)
Definition valid_updates (updates : jsobj) : jsobj :=
  fold_left (fun acc '(k, v) => if is_nullish v then acc else obj_set acc k v)
    updates [].

(** [Object.assign(target, source)] *)
Definition obj_assign (target source : jsobj) : jsobj :=
  fold_left (fun acc '(k, v) => obj_set acc k v) source target.

Definition updateContext (st : store) (userId : string) (updates : jsobj)
  (now : Z) : store :=
  let '(st1, context) := getUserContext st userId now in
  let validUpdates := valid_updates updates in
  let context' := obj_assign (obj_assign context validUpdates)
                    [("lastUpdated", JNum now 0)] in
  <[userId := context']> st1.

(** The message object built by [addMessageToHistory]. *)
Definition make_message (role content : jsval) (ts : string)
  (toolCalls toolCallId name : jsval) : jsval :=
  JObj ([("role", role); ("content", content); ("timestamp", JStr ts)]
        ++ (if truthy toolCalls then [("tool_calls", toolCalls)] else [])
        ++ (if truthy toolCallId then [("tool_call_id", toolCallId)] else [])
        ++ (if truthy name then [("name", name)] else [])).

(** [truncateHistoryIfNeeded] on the history array. *)
Definition truncate_history (h : list jsval) : list jsval :=
  if Nat.ltb maxHistoryLength (length h)
  then drop (length h - maxHistoryLength) h   (* slice(-maxHistoryLength) *)
  else h.

(** [addMessageToHistory(userId, role, content, toolCalls, toolCallId, name)]
    at time [now], with [ts] the ISO timestamp.  [push] on a
    [messageHistory] that is not an array throws a TypeError.  The push
    and the truncation mutate the stored session object, which is then
    passed to [updateContext] as the patch. *)
Definition addMessageToHistory (st : store) (userId : string)
  (role content toolCalls toolCallId name : jsval) (now : Z) (ts : string)
  : outcome store :=
  let '(st1, context) := getUserContext st userId now in
  let message := make_message role content ts toolCalls toolCallId name in
  match obj_get context "messageHistory" with
  | Some (JArr h) =>
      let context' := obj_set context "messageHistory"
                        (JArr (truncate_history (h ++ [message]))) in
      Ok (updateContext (<[userId := context']> st1) userId context' now)
  | _ => Throw "TypeError: context.messageHistory.push is not a function"
  end.


(** [estimateTokenCount(text)]: 0 for a falsy text, else ceil(length/4). *)
Definition estimateTokenCount (text : option string) : nat :=
  match text with
  | None | Some EmptyString => 0
  | Some t => (String.length t + 3) / 4
  end.

Definition message_tokens (msg : jsval) : nat :=
  estimateTokenCount (json_stringify number_json msg).

(** [estimateTokens(messages)] (the same reduce as the first sum of
    [enforceTokenLimits]). *)
Definition estimateTokens (messages : list jsval) : nat :=
  fold_left (fun total msg => total + message_tokens msg) messages 0.

(** The [while] loop of [enforceTokenLimits]: shift while the remaining
    messages are over the limit. *)
Fixpoint drop_over_limit (ms : list jsval) : list jsval :=
  match ms with
  | [] => []
  | _ :: ms' =>
      if Nat.leb (estimateTokens ms) maxTokensPerContext then ms
      else drop_over_limit ms'
  end.

Definition is_system (msg : jsval) : bool :=
  match get msg "role" with
  | JStr r => String.eqb r "system"
  | _ => false
  end.

Definition enforceTokenLimits (messages : list jsval) : list jsval :=
  if Nat.leb (estimateTokens messages) maxTokensPerContext then messages
  else
    match messages with
    | [] => []
    | m0 :: rest =>
        if is_system m0 then m0 :: drop_over_limit rest
        else drop_over_limit messages
    end.

(** [.length] of a value, as printed in a template literal. *)
Definition length_text (v : jsval) : string :=
  match v with
  | JArr xs => int_to_string (Z.of_nat (length xs))
  | JStr s => int_to_string (Z.of_nat (String.length s))
  | _ => "undefined"
  end.

Definition newline : string := String (ascii_of_nat 10) EmptyString.

(** [buildSystemPrompt(context)] of the context manager; [timeInfo] is
    [new Date().toLocaleString("en-IN", {timeZone: "Asia/Kolkata"})]. *)
Definition buildSystemPrompt (context : jsobj) (now : Z) (timeInfo : string)
  : string :=
  let loc := default JUndefined (obj_get context "userLocation") in
  let locationInfo :=
    if truthy loc
    then "Available at " ++ js_to_string (get loc "lat") ++ ", "
         ++ js_to_string (get loc "lng")
    else "Not provided" in
  let minutes :=
    match js_sub (Some (inject_Z now))
            (js_to_number (default JUndefined (obj_get context "sessionStartTime"))) with
    | Some d => int_to_string (Qfloor (Qdiv d (inject_Z 60000)))
    | None => "NaN"
    end in
  "Transportation Assistant Context:" ++ newline
  ++ "- Current Time: " ++ timeInfo ++ newline
  ++ "- User Location: " ++ locationInfo ++ newline
  ++ "- Active Buses: " ++ length_text (default JUndefined (obj_get context "activeBuses")) ++ newline
  ++ "- Available Routes: " ++ length_text (default JUndefined (obj_get context "busRoutes")) ++ newline
  ++ "- Session Duration: " ++ minutes ++ " minutes".

(** [getFormattedHistory(userId, includeSystem)] at time [now], with [ts]
    the ISO timestamp and [timeInfo] the localized time.  Spreading a
    [messageHistory] that is not an array throws. *)
Definition getFormattedHistory (st : store) (userId : string)
  (includeSystem : bool) (now : Z) (ts timeInfo : string)
  : store * outcome (list jsval) :=
  let '(st1, context) := getUserContext st userId now in
  match obj_get context "messageHistory" with
  | Some (JArr h) =>
      let messages :=
        if includeSystem
        then JObj [("role", JStr "system");
                   ("content", JStr (buildSystemPrompt context now timeInfo));
                   ("timestamp", JStr ts)] :: h
        else h in
      (st1, Ok (enforceTokenLimits messages))
  | _ => (st1, Throw "TypeError: context.messageHistory is not iterable")
  end.

(** [cleanupExpiredContexts()] at time [now]: the sessions for which the
    expiry test holds are deleted (deleting the visited entry during
    Map.prototype.forEach visits every other entry once); the method has
    no return statement, so its result is [undefined]. *)
Definition cleanupExpiredContexts (st : store) (now : Z) : store * jsval :=
  (filter (fun '(_, context) => is_expired context now = false) st, JUndefined).

(** The count kept in [cleanedCount] (only logged). *)
Definition cleanedCount (st : store) (now : Z) : nat :=
  size (filter (fun '(_, context) => is_expired context now = true) st).

End ContextManager.

(* ------------------------------------------------------------------ *)
(** ** The rest of [ContextManager] and its callers in src/server.js *)

(** [context.k] *)
Definition field (context : jsobj) (k : string) : jsval :=
  default JUndefined (obj_get context k).

(** [v.length] (UTF-16 code units for a string); reading a property of
    [undefined] or [null] throws. *)
Definition js_length (v : jsval) : outcome jsval :=
  match v with
  | JArr xs => Ok (JNum (Z.of_nat (length xs)) 0)
  | JStr s => Ok (JNum (Z.of_nat (String.length s)) 0)
  | JObj fs => Ok (default JUndefined (obj_get fs "length"))
  | JNum _ _ | JBool _ => Ok JUndefined
  | JUndefined => Throw "TypeError: Cannot read properties of undefined (reading 'length')"
  | JNull => Throw "TypeError: Cannot read properties of null (reading 'length')"
  end.

(** The object [getConversationSummary] returns; [None] is NaN. *)
Record summary : Type := mk_summary {
  su_userId : jsval;
  su_sessionDurationMinutes : option Z;
  su_messageCount : jsval;
  su_lastActivity : jsval;
  su_hasLocation : bool;
  su_recentSearchCount : jsval }.

(** [getConversationSummary(userId)] at time [now]. *)
Definition getConversationSummary (st : store) (userId : string) (now : Z)
  : store * outcome summary :=
  let '(st1, context) := getUserContext st userId now in
  let sessionDuration :=
    js_sub (Some (inject_Z now)) (js_to_number (field context "sessionStartTime")) in
  let minutes :=
    match sessionDuration with
    | Some d => Some (Qfloor (Qdiv d (inject_Z 60000)))
    | None => None
    end in
  (st1,
   match js_length (field context "messageHistory") with
   | Throw e => Throw e
   | Ok messageCount =>
       match js_length (field context "recentSearches") with
       | Throw e => Throw e
       | Ok recentSearchCount =>
           Ok (mk_summary (field context "userId") minutes messageCount
                 (field context "lastUpdated") (truthy (field context "userLocation"))
                 recentSearchCount)
       end
   end).

(** The entry [addToConversationHistory] pushes. *)
Definition conversation_entry (userMessage aiResponse : jsval) (now : Z) : jsval :=
  JObj [("timestamp", JNum now 0); ("userMessage", userMessage);
        ("aiResponse", aiResponse)].

(** [if (h.length > 10) h = h.slice(-10)] *)
Definition truncate_conversation (h : list jsval) : list jsval :=
  if Nat.ltb 10 (length h) then drop (length h - 10) h else h.

(** [addToConversationHistory(userId, userMessage, aiResponse)] at time
    [now], with [ts] the ISO timestamp.  The two [addMessageToHistory]
    calls find the session [context] live (it is stored, with
    [lastUpdated] at most [now]) and mutate it in place, so after them
    [context] is the object stored for [userId]; the legacy history is
    pushed onto that object. *)
Definition addToConversationHistory (st : store) (userId : string)
  (userMessage aiResponse : jsval) (now : Z) (ts : string) : outcome store :=
  let '(st1, context) := getUserContext st userId now in
  match addMessageToHistory st1 userId (JStr "user") userMessage JNull JNull JNull now ts with
  | Throw e => Throw e
  | Ok st2 =>
      match addMessageToHistory st2 userId (JStr "assistant") aiResponse JNull JNull JNull
              now ts with
      | Throw e => Throw e
      | Ok st3 =>
          let context := default context (st3 !! userId) in
          match obj_get context "conversationHistory" with
          | Some (JArr h) =>
              let context' :=
                obj_set context "conversationHistory"
                  (JArr (truncate_conversation (h ++ [conversation_entry userMessage aiResponse now]))) in
              Ok (updateContext (<[userId := context']> st3) userId context' now)
          | _ => Throw "TypeError: context.conversationHistory.push is not a function"
          end
      end
  end.

(** [socket.on("ai_chat_message")] up to the model call: the session is
    read, patched with the app state the server holds ([userLocation ||
    context.userLocation], the active buses, routes and stops, and
    [lastActivity]), and the user's message is recorded; then
    [aiAgent.processQuery(message, context)] is awaited.  A throw goes to
    the handler's [catch] ([ai_chat_error]). *)
Definition ai_chat_before (st : store) (userId : string)
  (message userLocation activeBuses busRoutes busStops : jsval) (now : Z) (ts : string)
  : outcome store :=
  let '(st1, context) := getUserContext st userId now in
  let contextUpdates :=
    [("userLocation", if truthy userLocation then userLocation
                      else field context "userLocation");
     ("activeBuses", activeBuses);
     ("busRoutes", busRoutes);
     ("busStops", busStops);
     ("lastActivity", JNum now 0)] in
  let st2 := updateContext st1 userId contextUpdates now in
  addMessageToHistory st2 userId (JStr "user") message JNull JNull JNull now ts.

(** The rest of the handler once [processQuery] resolved to [response]:
    the reply is recorded, the legacy history is updated, and the summary
    sent as [sessionInfo] is taken. *)
Definition ai_chat_after (st : store) (userId : string) (message response : jsval)
  (now : Z) (ts : string) : outcome (store * summary) :=
  match addMessageToHistory st userId (JStr "assistant") response JNull JNull JNull now ts with
  | Throw e => Throw e
  | Ok st1 =>
      match addToConversationHistory st1 userId message response now ts with
      | Throw e => Throw e
      | Ok st2 =>
          match getConversationSummary st2 userId now with
          | (st3, Ok sessionInfo) => Ok (st3, sessionInfo)
          | (_, Throw e) => Throw e
          end
      end
  end.

(** [app.get("/api/conversation/:userId")] at time [now]: the summary, the
    last ten messages ([slice(-10)]) and whether the session was updated in
    the last five minutes; a throw gives the 500 response. *)
Definition js_slice_last (v : jsval) (n : nat) : outcome jsval :=
  match v with
  | JArr xs => Ok (JArr (drop (length xs - n) xs))
  | JStr s => Ok (JStr (substring (String.length s - n) n s))
  | _ => Throw "TypeError: context.messageHistory.slice is not a function"
  end.

Definition get_conversation (st : store) (userId : string) (now : Z)
  : store * outcome (summary * jsval * bool) :=
  let '(st1, context) := getUserContext st userId now in
  let '(st2, summary) := getConversationSummary st1 userId now in
  (st2,
   match summary with
   | Throw e => Throw e
   | Ok s =>
       match js_slice_last (field context "messageHistory") 10 with
       | Throw e => Throw e
       | Ok recentHistory =>
           Ok (s, recentHistory,
               js_gt (Some (inject_Z (5 * 60 * 1000)))
                     (js_sub (Some (inject_Z now)) (js_to_number (field context "lastUpdated"))))
       end
   end).

(* ------------------------------------------------------------------ *)
(** ** Strings: toLowerCase and includes *)

(** String.prototype.toLowerCase on the code units A-Z; the Unicode case
    mappings of other code units are not modelled (they are kept). *)
Definition lower_unit (c : ascii) : ascii :=
  let n := nat_of_ascii c in
  if Nat.leb 65 n && Nat.leb n 90 then ascii_of_nat (n + 32) else c.

Fixpoint toLowerCase (s : string) : string :=
  match s with
  | EmptyString => EmptyString
  | String c s' => String (lower_unit c) (toLowerCase s')
  end.

(** [s.includes(t)] *)
Fixpoint includes (s t : string) : bool :=
  String.prefix t s ||
  match s with
  | EmptyString => false
  | String _ s' => includes s' t
  end.

(* ------------------------------------------------------------------ *)
(** ** The agent loop: [class AIAgent] (src/unnamed/part_002) *)

(** What the loop does that the outside world sees. *)
Inductive event : Type :=
| EvCall (messages : list jsval)    (* makeAPICall(messages) *)
| EvSleep (ms : Z)                  (* await setTimeout(resolve, ms) *)
| EvExecuting (tool_name args : jsval)  (* executeTool's entry log *)
| EvToolRun (tool_name args : jsval).   (* agentTools[tool_name](args, context) *)

Record world : Type := mk_world { calls : nat; trace : list event }.

(** The state and exception monad of one turn. *)
Definition M (A : Type) : Type := world -> outcome A * world.

Definition ret {A} (a : A) : M A := fun w => (Ok a, w).

Definition bind {A B} (m : M A) (k : A -> M B) : M B :=
  fun w => match m w with
           | (Ok a, w') => k a w'
           | (Throw e, w') => (Throw e, w')
           end.

Notation "'let*' x := m 'in' k" := (bind m (fun x => k))
  (at level 200, x name, m at level 100, right associativity).

(** [try { m } catch (error) { h(error.message) }] *)
Definition try_catch {A} (m : M A) (h : string -> M A) : M A :=
  fun w => match m w with
           | (Ok a, w') => (Ok a, w')
           | (Throw e, w') => h e w'
           end.

Definition emit (ev : event) : M unit :=
  fun w => (Ok tt, mk_world (calls w) (trace w ++ [ev])).

Definition sleep (ms : Z) : M unit := emit (EvSleep ms).

Definition restrictedWords : list string :=
  ["badword"; "inappropriate"; "unsafe_topic"; "moovit"; "other applications"].

Definition maxRetries : nat := 3.
Definition retryDelay : Z := 1000.

Definition isQueryRestricted (userQuery : string) : bool :=
  let query := toLowerCase userQuery in
  existsb (fun word => includes query word) restrictedWords.

Definition refusal : string :=
  "I'm sorry, I can only help with transportation and bus-related queries.".
Definition apology : string :=
  "I apologize, but I encountered a technical issue. Please try again.".
Definition format_fallback : string :=
  "I retrieved the information but encountered an issue formatting the response.".

(** The tool-call detection: [JSON.parse], then the [tool_name] and
    [arguments] test; a SyntaxError, and the TypeError of reading a
    property of [null], are caught and give [null]. *)
Definition parse_tool_call (responseContent : string) : option jsval :=
  match json_parse responseContent with
  | Some JNull | None => None
  | Some toolCall =>
      if negb (truthy (get toolCall "tool_name")) || negb (truthy (get toolCall "arguments"))
      then None else Some toolCall
  end.

Section Agent.

Variable number_to_string : Z -> Z -> string.
Variable number_json : Z -> Z -> string.

(** The language model: the reply content of the [i]-th call with the
    given messages, or [None] when the call throws (rejected request,
    timeout, non-2xx status, or a response without
    [data.choices[0].message.content]). *)
Variable oracle : nat -> list jsval -> option string.

(** [agentTools[tool_name]]: [Some f] when the property is truthy, [f]
    being the call [agentTools[tool_name](args, context)], which returns
    a value or throws. *)
Variable agentTools : jsval -> option (jsval -> jsobj -> outcome jsval).

Definition makeAPICall (messages : list jsval) : M string :=
  fun w =>
    let w' := mk_world (S (calls w)) (trace w ++ [EvCall messages]) in
    match oracle (calls w) messages with
    | Some content => (Ok content, w')
    | None => (Throw "Request failed", w')
    end.

Definition json_text (v : jsval) : jsval :=
  match json_stringify number_json v with
  | Some s => JStr s
  | None => JUndefined
  end.

(** The [try] block running the tool in [executeTool]. *)
Definition run_tool (tool_name args : jsval) (context : jsobj) : M jsval :=
  match agentTools tool_name with
  | Some f =>
      bind (emit (EvToolRun tool_name args)) (fun _ =>
        match f args context with
        | Ok r => ret r
        | Throw msg =>
            ret (JObj [("error", JStr ("Error executing "
                          ++ js_to_string number_to_string tool_name ++ ": " ++ msg))])
        end)
  | None =>
      ret (JObj [("error", JStr ("Tool '" ++ js_to_string number_to_string tool_name
                                 ++ "' not found."))])
  end.

(** [executeTool(toolCall, context, messages)]; [now] is the [Date.now()]
    of the invocation id.  The two pushes extend the caller's [messages]. *)
Definition executeTool (toolCall : jsval) (context : jsobj)
  (messages : list jsval) (now : Z) : M string :=
  let tool_name := get toolCall "tool_name" in
  let args := get toolCall "arguments" in
  let* _ := emit (EvExecuting tool_name args) in
  let assistant_msg :=
    JObj [("role", JStr "assistant"); ("content", JNull);
          ("tool_calls",
            JArr [JObj [("id", JStr ("tool_" ++ int_to_string now));
                        ("type", JStr "function");
                        ("function", JObj [("name", tool_name);
                                           ("arguments", json_text args)])]])] in
  let* toolResult := run_tool tool_name args context in
  let tool_msg :=
    JObj [("role", JStr "tool"); ("content", json_text toolResult);
          ("name", tool_name)] in
  try_catch (makeAPICall (messages ++ [assistant_msg; tool_msg]))
            (fun _ => ret format_fallback).

(** One pass of the [while] body, inside its [try]. *)
Definition attempt_body (userQuery : string) (context : jsobj)
  (systemPrompt : string) (now : Z) : M (option string) :=
  let messages := [JObj [("role", JStr "system"); ("content", JStr systemPrompt)];
                   JObj [("role", JStr "user"); ("content", JStr userQuery)]] in
  let* responseContent := makeAPICall messages in
  match parse_tool_call responseContent with
  | Some toolCall => let* r := executeTool toolCall context messages now in ret (Some r)
  | None => ret (Some responseContent)
  end.

(** [while (attempt < this.maxRetries) { try {...} catch {...} }]; [fuel]
    bounds the iterations (the loop runs at most [maxRetries] times); the
    result [None] is falling out of the loop, which returns [undefined]. *)
Fixpoint retry_loop (fuel attempt : nat) (userQuery : string)
  (context : jsobj) (systemPrompt : string) (now : Z) : M (option string) :=
  match fuel with
  | O => ret None
  | S fuel' =>
      if Nat.ltb attempt maxRetries then
        try_catch (attempt_body userQuery context systemPrompt now)
          (fun _ =>
             let attempt' := S attempt in
             if Nat.leb maxRetries attempt' then ret (Some apology)
             else let* _ := sleep (retryDelay * Z.of_nat attempt') in
                  retry_loop fuel' attempt' userQuery context systemPrompt now)
      else ret None
  end.

(** [processQuery(userQuery, context)]; [systemPrompt] is the text of
    [this.buildSystemPrompt(context)] and [now] the clock at the tool call. *)
Definition processQuery (userQuery : string) (context : jsobj)
  (systemPrompt : string) (now : Z) : M (option string) :=
  if isQueryRestricted userQuery then ret (Some refusal)
  else retry_loop maxRetries 0 userQuery context systemPrompt now.

End Agent.

(* ------------------------------------------------------------------ *)
(** ** The tools [agentTools] (src/unnamed/part_002)

    They read the live-state snapshot with the shapes the server builds:
    stops from [parseBusStops] ({name, latitude, longitude}, numbers as
    IEEE doubles), routes with an optional [parsedStops], active buses,
    [busStops] as the list [Object.values] enumerates (key, stops), and
    the user's location. *)

Record stop : Type := mk_stop {
  stop_name : string;
  stop_latitude : float;
  stop_longitude : float }.

Record route : Type := mk_route {
  route_busId : string;
  route_parsedStops : option (list stop) }.   (* None: undefined *)

Record bus : Type := mk_bus {
  bus_busId : string;
  bus_latitude : float;
  bus_longitude : float }.

Record location : Type := mk_location { lat : float; lng : float }.

Record snapshot : Type := mk_snapshot {
  activeBuses : list bus;
  busRoutes : list route;
  busStops : list (string * list stop);
  userLocation : option location }.   (* None: null or undefined *)

(** [Array.prototype.findIndex]: [None] is -1. *)
Fixpoint findIndex {A} (p : A -> bool) (l : list A) : option nat :=
  match l with
  | [] => None
  | x :: l' => if p x then Some 0 else option_map S (findIndex p l')
  end.

(** [Array.prototype.find] *)
Fixpoint find {A} (p : A -> bool) (l : list A) : option A :=
  match l with
  | [] => None
  | x :: l' => if p x then Some x else find p l'
  end.

(** [l.slice(i, j)] for [0 <= i <= j]. *)
Definition slice {A} (l : list A) (i j : nat) : list A := take (j - i) (drop i l).

(** One element of [routes] in the result of [find_routes]. *)
Record route_match : Type := mk_route_match {
  rm_busId : string;
  rm_path : list string;
  rm_stopCount : nat;
  rm_estimatedTime : string }.

Inductive find_routes_result : Type :=
| RoutesFound (routes : list route_match)   (* {success: true, routes} *)
| NoRoutes (message : string).              (* {success: false, message} *)

(** The [forEach] body of [find_routes] on one route. *)
Definition route_candidate (from to : string) (r : route) : list route_match :=
  let stops := default [] (route_parsedStops r) in
  let fromIndex := findIndex (fun s => includes (toLowerCase (stop_name s)) from) stops in
  let toIndex := findIndex (fun s => includes (toLowerCase (stop_name s)) to) stops in
  match fromIndex, toIndex with
  | Some i, Some j =>
      if Nat.ltb i j then
        let path := slice stops i (j + 1) in
        [mk_route_match (route_busId r) (map stop_name path) (length path)
           (int_to_string (Z.of_nat (length path * 2)) ++ " minutes")]
      else []
  | _, _ => []
  end.

Definition find_routes (fromStop toStop : string) (context : snapshot)
  : find_routes_result :=
  let from := toLowerCase fromStop in
  let to := toLowerCase toStop in
  let allRoutes := flat_map (route_candidate from to) (busRoutes context) in
  match allRoutes with
  | [] => NoRoutes ("No direct routes found from " ++ fromStop ++ " to " ++ toStop ++ ".")
  | _ => RoutesFound allRoutes
  end.

Record arrival : Type := mk_arrival {
  ar_busId : string;
  ar_stopName : string;
  ar_estimatedArrival : string;
  ar_estimatedMinutes : nat;
  ar_currentBusLocation : float * float }.

Inductive arrival_result : Type :=
| ArrivalError (error : string)     (* {error} *)
| Arrival (a : arrival).

Section ArrivalTime.

(** [toLocaleTimeString("en-IN", {timeZone: "Asia/Kolkata", hour12: true})]
    of the date with the given epoch milliseconds. *)
Variable toLocaleTimeString : Z -> string.

Definition get_arrival_time (busId stopName : string) (context : snapshot)
  (now : Z) : arrival_result :=
  match find (fun b => String.eqb (toLowerCase (bus_busId b)) (toLowerCase busId))
             (activeBuses context) with
  | None => ArrivalError ("Bus " ++ busId ++ " not found or not active.")
  | Some b =>
      match find (fun r => String.eqb (route_busId r) busId) (busRoutes context) with
      | None | Some (mk_route _ None) =>
          ArrivalError ("Route information not available for bus " ++ busId ++ ".")
      | Some (mk_route _ (Some parsedStops)) =>
          match findIndex (fun s => includes (toLowerCase (stop_name s))
                                             (toLowerCase stopName)) parsedStops with
          | None =>
              ArrivalError ("Stop '" ++ stopName ++ "' not found on route for bus "
                            ++ busId ++ ".")
          | Some stopIndex =>
              let estimatedMinutes := stopIndex * 2 in
              Arrival (mk_arrival busId stopName
                         (toLocaleTimeString (now + Z.of_nat estimatedMinutes * 60000))
                         estimatedMinutes
                         (bus_latitude b, bus_longitude b))
          end
      end
  end.

End ArrivalTime.

(** ToBoolean of a number: false for +0, -0 and NaN. *)
Definition float_truthy (x : float) : bool :=
  negb (PrimFloat.is_zero x || PrimFloat.is_nan x).

(** The [if] of [find_nearest_stops] that admits a stop. *)
Definition stop_admitted (s : stop) : bool :=
  negb (String.eqb (stop_name s) EmptyString)
  && float_truthy (stop_latitude s) && float_truthy (stop_longitude s).

(** [allStops]: a Map from lowercased name to the first admitted stop of
    that name, in insertion order. *)
Definition collect_stops (acc : list (string * stop)) (s : stop)
  : list (string * stop) :=
  if stop_admitted s then
    let stopKey := toLowerCase (stop_name s) in
    if existsb (fun '(k, _) => String.eqb k stopKey) acc then acc
    else acc ++ [(stopKey, s)]
  else acc.

Definition all_stops (busStops : list (string * list stop)) : list stop :=
  map snd (fold_left (fun acc '(_, stops) => fold_left collect_stops stops acc)
             busStops []).

(** One element of [stops] in the result of [find_nearest_stops]. *)
Record nearest : Type := mk_nearest {
  n_name : string;
  n_distance_km : string;
  n_coordinates : string }.

Inductive nearest_result : Type :=
| NearestError (error : string)      (* {error} *)
| NoStops (message : string)         (* {message} *)
| Stops (stops : list nearest).      (* {stops} *)

(** [arr.slice(0, count)]: a negative [count] counts from the end. *)
Definition slice_to {A} (l : list A) (count : Z) : list A :=
  let len := Z.of_nat (length l) in
  let e := if (count <? 0)%Z then Z.max (len + count) 0 else Z.min count len in
  take (Z.to_nat e) l.

Section NearestStops.

Local Open Scope float_scope.

(** Math.sin, Math.cos and Math.atan2 (implementation-approximated in
    ECMAScript), Number::toString and Number.prototype.toFixed(2). *)
Variable sin cos : float -> float.
Variable atan2 : float -> float -> float.
Variable float_to_string : float -> string.
Variable toFixed2 : float -> string.

Definition PI : float := 0x1.921fb54442d18p+1.   (* Math.PI *)

(** The haversine distance of the [map] in [find_nearest_stops]. *)
Definition distance (userLat userLng : float) (s : stop) : float :=
  let R := 6371 in
  let dLat := (stop_latitude s - userLat) * (PI / 180) in
  let dLon := (stop_longitude s - userLng) * (PI / 180) in
  let a := sin (dLat / 2) * sin (dLat / 2)
           + cos (userLat * (PI / 180)) * cos (stop_latitude s * (PI / 180))
             * sin (dLon / 2) * sin (dLon / 2) in
  let c := 2 * atan2 (PrimFloat.sqrt a) (PrimFloat.sqrt (1 - a)) in
  R * c.

(** Stable insertion by the comparator [(a, b) => a.distance - b.distance]
    (a NaN comparison counts as 0); for a consistent comparator every
    stable sort, as Array.prototype.sort is, gives this order. *)
Fixpoint insert_by_distance (x : stop * float) (l : list (stop * float))
  : list (stop * float) :=
  match l with
  | [] => [x]
  | y :: l' =>
      if 0 <? snd y - snd x then x :: y :: l' else y :: insert_by_distance x l'
  end.

Definition sort_by_distance (l : list (stop * float)) : list (stop * float) :=
  fold_left (fun acc x => insert_by_distance x acc) l [].

Definition nearest_entry (sd : stop * float) : nearest :=
  mk_nearest (stop_name (fst sd)) (toFixed2 (snd sd))
    (float_to_string (stop_latitude (fst sd)) ++ ", "
     ++ float_to_string (stop_longitude (fst sd))).

(** [find_nearest_stops({count = 3}, context)]; [None] is an undefined
    [count]. *)
Definition find_nearest_stops (count : option Z) (context : snapshot)
  : nearest_result :=
  match userLocation context with
  | Some loc =>
      if float_truthy (lat loc) && float_truthy (lng loc) then
        match all_stops (busStops context) with
        | [] => NoStops "No bus stops available to search."
        | allStops =>
            let stopsWithDistance :=
              map (fun s => (s, distance (lat loc) (lng loc) s)) allStops in
            Stops (map nearest_entry
                     (slice_to (sort_by_distance stopsWithDistance)
                               (default 3%Z count)))
        end
      else NearestError "User location is not available. Cannot find nearest stops without it."
  | None => NearestError "User location is not available. Cannot find nearest stops without it."
  end.

End NearestStops.

(* ------------------------------------------------------------------ *)
(** ** [get_bus_details] (src/unnamed/part_002)

    The active buses as the tool reads them; their ids are strings
    ([b.busId.toLowerCase()] throws on any other value). *)



Section BusDetails.

(** Number::toString of the number written [m * 10^e], and
    StringToNumber ([None]: NaN). *)
Variable number_to_string : Z -> Z -> string.
Variable string_to_number : string -> option Q.

(** ToString of a JSON value (the data comes from [JSON.parse] or the
    socket payload, so no property holds a function).  An array joins its
    elements ([null] and [undefined] give the empty string).  An object
    with an own [toString] property has a non-callable [toString], and
    neither its [valueOf] nor [Object.prototype.valueOf] gives a
    primitive: OrdinaryToPrimitive throws a TypeError.  Any other object
    uses [Object.prototype.toString]. *)
Fixpoint js_to_string_checked (v : jsval) : outcome string :=
  match v with
  | JArr xs =>
      let fix go (xs : list jsval) : outcome (list string) :=
        match xs with
        | [] => Ok []
        | x :: xs' =>
            match match x with
                  | JUndefined | JNull => Ok EmptyString
                  | _ => js_to_string_checked x
                  end with
            | Throw e => Throw e
            | Ok s => match go xs' with
                      | Throw e => Throw e
                      | Ok ss => Ok (s :: ss)
                      end
            end
        end in
      match go xs with
      | Ok ss => Ok (String.concat "," ss)
      | Throw e => Throw e
      end
  | JObj fs =>
      match obj_get fs "toString" with
      | Some _ => Throw "TypeError: Cannot convert object to primitive value"
      | None => Ok "[object Object]"
      end
  | _ => Ok (js_to_string number_to_string v)
  end.



End BusDetails.


(* ------------------------------------------------------------------ *)
(** ** [parseBusStops] (src/server.js) *)

(** [s.split(c)] for a one-unit separator: the pieces between the
    separators, [[""]] for the empty string. *)
Fixpoint split_on (c : ascii) (s : string) : list string :=
  match s with
  | EmptyString => [EmptyString]
  | String d s' =>
      if Ascii.eqb d c then EmptyString :: split_on c s'
      else match split_on c s' with
           | x :: xs => String d x :: xs
           | [] => [String d EmptyString]
           end
  end.

(** WhiteSpace and LineTerminator code units below 256: TAB, LF, VT, FF,
    CR, SPACE and NBSP. *)
Definition is_ws (c : ascii) : bool :=
  existsb (Nat.eqb (nat_of_ascii c)) [9; 10; 11; 12; 13; 32; 160].

Fixpoint trim_start (s : string) : string :=
  match s with
  | EmptyString => EmptyString
  | String c s' => if is_ws c then trim_start s' else s
  end.

Fixpoint trim_end (s : string) : string :=
  match s with
  | EmptyString => EmptyString
  | String c s' =>
      let r := trim_end s' in
      if String.eqb r EmptyString && is_ws c then EmptyString else String c r
  end.

(** [String.prototype.trim]. *)
Definition trim (s : string) : string := trim_end (trim_start s).

(** A stop pushed by [parseBusStops]: [name] is copied as it is from an
    object entry, so it is any value. *)
Record parsed_stop : Type := mk_parsed_stop {
  ps_name : jsval;
  ps_latitude : float;
  ps_longitude : float }.

Section ParseBusStops.

Variable number_to_string : Z -> Z -> string.

(** The global [parseFloat] on a string: the longest decimal prefix after
    leading white space, NaN when there is none. *)
Variable parseFloat : string -> float.

(** [parseFloat(v)]: ToString of the value first, which can throw. *)
Definition js_parseFloat (v : jsval) : outcome float :=
  match js_to_string_checked number_to_string v with
  | Ok s => Ok (parseFloat s)
  | Throw e => Throw e
  end.

(** The [forEach] body of [parseBusStops] on one entry: the stop it
    pushes, or a TypeError: [null.name] ([typeof null] is "object"), or
    the conversion of an object's [latitude] or [longitude].  An array
    entry has no [name]. *)
Definition parse_stop_entry (stop : jsval) : outcome (option parsed_stop) :=
  match stop with
  | JStr s =>
      if includes s ":" then
        match split_on ":" s with
        | name :: coords :: _ =>
            let parts := split_on "," coords in
            let latitude := JStr (default EmptyString (head parts)) in
            let longitude := match parts with
                             | _ :: l :: _ => JStr l
                             | _ => JUndefined
                             end in
            match js_parseFloat latitude, js_parseFloat longitude with
            | Ok lat, Ok lng =>
                if negb (PrimFloat.is_nan lat) && negb (PrimFloat.is_nan lng)
                then Ok (Some (mk_parsed_stop (JStr (trim name)) lat lng))
                else Ok None
            | Throw e, _ | _, Throw e => Throw e
            end
        | _ => Ok None
        end
      else Ok None
  | JNull => Throw "TypeError: Cannot read properties of null (reading 'name')"
  | JObj _ =>
      if truthy (get stop "name") && truthy (get stop "latitude")
         && truthy (get stop "longitude")
      then match js_parseFloat (get stop "latitude") with
           | Throw e => Throw e
           | Ok lat =>
               match js_parseFloat (get stop "longitude") with
               | Throw e => Throw e
               | Ok lng => Ok (Some (mk_parsed_stop (get stop "name") lat lng))
               end
           end
      else Ok None
  | _ => Ok None
  end.

Fixpoint parse_stop_entries (xs : list jsval) : outcome (list parsed_stop) :=
  match xs with
  | [] => Ok []
  | x :: xs' =>
      match parse_stop_entry x with
      | Throw m => Throw m
      | Ok o =>
          match parse_stop_entries xs' with
          | Throw m => Throw m
          | Ok l => Ok (app (option_list o) l)
          end
      end
  end.

(** [parseBusStops(rawStops)] (src/server.js). *)
Definition parseBusStops (rawStops : jsval) : outcome (list parsed_stop) :=
  match rawStops with
  | JArr xs => parse_stop_entries xs
  | _ => Ok []
  end.

End ParseBusStops.


(* ================================================================== *)
(** * Properties *)

(* ------------------------------------------------------------------ *)
(** ** [findIndex] *)

Section FindIndex.
Context {A : Type} (p : A -> bool).

(** [i] is the first index whose element satisfies [p]. *)
Definition first_match (l : list A) (i : nat) : Prop :=
  (exists x, l !! i = Some x /\ p x = true) /\
  (forall k y, k < i -> l !! k = Some y -> p y = false).

Lemma findIndex_None_iff (l : list A) :
  findIndex p l = None <-> forall k y, l !! k = Some y -> p y = false.
Proof.
  induction l as [|x l IH]; simpl.
  - split; [intros _ k y H; discriminate H | reflexivity].
  - destruct (p x) eqn:Hp.
    + split; [discriminate|]. intros H. rewrite (H 0 x eq_refl) in Hp. discriminate.
    + destruct (findIndex p l) eqn:E; simpl.
      * split; [discriminate|]. intros H. exfalso.
        assert (Hn : Some n = None) by (apply IH; intros k y Hk; apply (H (S k)); exact Hk).
        discriminate Hn.
      * split; [|reflexivity]. intros _ [|k] y Hk; simpl in Hk.
        -- injection Hk as <-. exact Hp.
        -- exact (proj1 IH eq_refl k y Hk).
Qed.

Lemma findIndex_Some_iff (l : list A) (i : nat) :
  findIndex p l = Some i <-> first_match l i.
Proof.
  revert i; induction l as [|x l IH]; intros i; simpl.
  - split; [discriminate|]. intros [[y [Hy _]] _]. discriminate Hy.
  - destruct (p x) eqn:Hp.
    + split.
      * intros [= <-]. split; [exists x; split; [reflexivity | exact Hp] | intros k y Hk; lia].
      * intros [_ Hmin]. destruct i as [|i]; [reflexivity|].
        rewrite (Hmin 0 x ltac:(lia) eq_refl) in Hp. discriminate.
    + assert (Hshift : forall j, first_match (x :: l) (S j) <-> first_match l j).
      { intros j; split.
        - intros [[y [Hy Hpy]] Hmin]. split; [exists y; split; assumption|].
          intros k z Hk Hz. apply (Hmin (S k)); [lia | exact Hz].
        - intros [[y [Hy Hpy]] Hmin]. split; [exists y; split; assumption|].
          intros [|k] z Hk Hz; simpl in Hz.
          + injection Hz as <-. exact Hp.
          + apply (Hmin k); [lia | exact Hz]. }
      destruct i as [|i].
      * split.
        -- destruct (findIndex p l); simpl; discriminate.
        -- intros [[y [Hy Hpy]] _]. simpl in Hy. injection Hy as <-. congruence.
      * rewrite Hshift, <- IH. destruct (findIndex p l); simpl; split; congruence.
Qed.

End FindIndex.

(* ------------------------------------------------------------------ *)
(** ** [find_routes] *)

(** A stop's name contains the query, both lowercased. *)
Definition stop_matches (query : string) (s : stop) : bool :=
  includes (toLowerCase (stop_name s)) (toLowerCase query).

(** [rm] is the entry of a qualifying route with stops [stops]: the first
    stop matching [fromStop] comes strictly before the first stop matching
    [toStop], the path lists the stops between them inclusive, and the
    estimated time is 2 minutes per stop of the path. *)
Definition qualifying_entry (fromStop toStop busId : string) (stops : list stop)
  (rm : route_match) : Prop :=
  exists i j,
    first_match (stop_matches fromStop) stops i /\
    first_match (stop_matches toStop) stops j /\
    i < j /\
    length (rm_path rm) = j - i + 1 /\
    (forall k, k < length (rm_path rm) -> rm_path rm !! k = stop_name <$> stops !! (i + k)) /\
    rm_busId rm = busId /\
    rm_stopCount rm = j - i + 1 /\
    rm_estimatedTime rm = int_to_string (Z.of_nat (2 * (j - i + 1))) ++ " minutes".

Definition routes_of (res : find_routes_result) : list route_match :=
  match res with
  | RoutesFound routes => routes
  | NoRoutes _ => []
  end.

Lemma route_candidate_spec (fromStop toStop : string) (r : route) (rm : route_match) :
  In rm (route_candidate (toLowerCase fromStop) (toLowerCase toStop) r) <->
  qualifying_entry fromStop toStop (route_busId r) (default [] (route_parsedStops r)) rm.
Proof.
  unfold route_candidate, qualifying_entry.
  set (stops := default [] (route_parsedStops r)).
  split.
  - destruct (findIndex _ stops) as [i|] eqn:Ei; [|intros []].
    destruct (findIndex (fun s => includes (toLowerCase (stop_name s)) (toLowerCase toStop)) stops)
      as [j|] eqn:Ej; [|intros []].
    destruct (Nat.ltb i j) eqn:Hij; [|intros []].
    intros [<- | []]. apply Nat.ltb_lt in Hij.
    apply (findIndex_Some_iff (stop_matches fromStop)) in Ei.
    apply (findIndex_Some_iff (stop_matches toStop)) in Ej.
    assert (Hj : j < length stops).
    { destruct Ej as [[y [Hy _]] _]. exact (lookup_lt_Some _ _ _ Hy). }
    exists i, j. simpl. unfold slice.
    rewrite length_map, length_take, length_drop.
    split; [exact Ei|]. split; [exact Ej|]. split; [exact Hij|]. split; [lia|].
    split; [|split; [reflexivity|split; [lia|]]].
    + intros k Hk. rewrite list_lookup_fmap, lookup_take, lookup_drop.
      case_decide; [reflexivity | lia].
    + f_equal. f_equal. lia.
  - intros (i & j & Hi & Hj & Hij & Hlen & Hpath & Hbus & Hcount & Htime).
    pose proof Hi as Hi'. pose proof Hj as Hj'.
    apply (findIndex_Some_iff (stop_matches fromStop)) in Hi'.
    apply (findIndex_Some_iff (stop_matches toStop)) in Hj'.
    unfold stop_matches in Hi', Hj'. rewrite Hi', Hj'.
    apply Nat.ltb_lt in Hij as Hlt. rewrite Hlt. left.
    assert (Hjl : j < length stops).
    { destruct Hj as [[y [Hy _]] _]. exact (lookup_lt_Some _ _ _ Hy). }
    destruct rm as [b path cnt tm]; simpl in *. subst.
    unfold slice. rewrite length_take, length_drop.
    f_equal.
    + apply list_eq. intros k.
      destruct (decide (k < j - i + 1)) as [Hk|Hk].
      * rewrite Hpath by lia. rewrite list_lookup_fmap, lookup_take, lookup_drop.
        case_decide; [reflexivity | lia].
      * rewrite (lookup_ge_None_2 path k) by lia.
        rewrite lookup_ge_None_2; [reflexivity|].
        rewrite length_map, length_take, length_drop. lia.
    + lia.
    + f_equal. f_equal. lia.
Qed.

Lemma find_routes_routes (fromStop toStop : string) (context : snapshot) :
  routes_of (find_routes fromStop toStop context) =
  flat_map (route_candidate (toLowerCase fromStop) (toLowerCase toStop)) (busRoutes context).
Proof.
  unfold find_routes. destruct (flat_map _ _); reflexivity.
Qed.

(** A route with the stops A, B, C, D. *)
Definition abcd_snapshot : snapshot :=
  mk_snapshot []
    [mk_route "R1" (Some [mk_stop "A" 1 1; mk_stop "B" 2 2;
                          mk_stop "C" 3 3; mk_stop "D" 4 4])]
    [] None.

(** C4: a route qualifies exactly when the first stop containing [fromStop]
    and the first stop containing [toStop] (case-insensitively) both exist
    and the former comes first; its entry has the inclusive stop slice as
    path and 2 minutes per stop of the path as estimated time; the result
    is a success exactly when some route qualifies.  On the route
    [A, B, C, D], A to C gives the path [A, B, C], 3 stops, "6 minutes",
    and C to A gives [success: false]. *)
Theorem find_routes_qualifying_routes :
  (forall (fromStop toStop : string) (context : snapshot) (rm : route_match),
     In rm (routes_of (find_routes fromStop toStop context)) <->
     exists r, In r (busRoutes context) /\
       qualifying_entry fromStop toStop (route_busId r) (default [] (route_parsedStops r)) rm) /\
  (forall (fromStop toStop : string) (context : snapshot),
     (exists routes, find_routes fromStop toStop context = RoutesFound routes) <->
     exists r rm, In r (busRoutes context) /\
       qualifying_entry fromStop toStop (route_busId r) (default [] (route_parsedStops r)) rm) /\
  find_routes "A" "C" abcd_snapshot
    = RoutesFound [mk_route_match "R1" ["A"; "B"; "C"] 3 "6 minutes"] /\
  (exists message, find_routes "C" "A" abcd_snapshot = NoRoutes message).
Proof.
  assert (Hin : forall fromStop toStop context rm,
            In rm (routes_of (find_routes fromStop toStop context)) <->
            exists r, In r (busRoutes context) /\
              qualifying_entry fromStop toStop (route_busId r)
                (default [] (route_parsedStops r)) rm).
  { intros fromStop toStop context rm.
    rewrite find_routes_routes, in_flat_map.
    split; intros [r [Hr Hrm]]; exists r; split; try exact Hr;
      apply route_candidate_spec; exact Hrm. }
  split; [exact Hin|]. split.
  - intros fromStop toStop context. split.
    + intros [routes Hres].
      assert (Hne : routes <> []).
      { intros ->. unfold find_routes in Hres.
        destruct (flat_map _ _); discriminate. }
      destruct routes as [|rm routes]; [congruence|].
      destruct (proj1 (Hin fromStop toStop context rm)) as [r [Hr Hq]].
      { rewrite Hres. left. reflexivity. }
      exists r, rm. split; assumption.
    + intros (r & rm & Hr & Hq).
      assert (Hrm : In rm (routes_of (find_routes fromStop toStop context)))
        by (apply Hin; exists r; split; assumption).
      destruct (find_routes fromStop toStop context) as [routes|msg];
        [exists routes; reflexivity | destruct Hrm].
  - split; [reflexivity|]. eexists. reflexivity.
Qed.

(* ------------------------------------------------------------------ *)
(** ** [get_arrival_time] *)

(** An active bus and its route, both with the id "BUS1". *)
Definition bus1_snapshot : snapshot :=
  mk_snapshot [mk_bus "BUS1" 12 77]
    [mk_route "BUS1" (Some [mk_stop "Central" 12 77; mk_stop "Market" 13 78])]
    [] None.

(** C5: the active-bus lookup lowercases both ids, the route lookup
    compares them exactly.  With an active bus and a route both named
    "BUS1", the query "bus1" finds the bus and then reports the route as
    unavailable, while the query "BUS1" gives 2 x the stop index. *)
Theorem get_arrival_time_route_lookup_is_case_sensitive :
  forall (toLocaleTimeString : Z -> string) (now : Z),
    get_arrival_time toLocaleTimeString "bus1" "central" bus1_snapshot now
      = ArrivalError "Route information not available for bus bus1." /\
    get_arrival_time toLocaleTimeString "BUS1" "market" bus1_snapshot now
      = Arrival (mk_arrival "BUS1" "market" (toLocaleTimeString (now + 2 * 60000)%Z)
                  2 (12%float, 77%float)).
Proof.
  intros toLocaleTimeString now. split; reflexivity.
Qed.

(* ------------------------------------------------------------------ *)
(** ** [find_nearest_stops] *)

Lemma in_take_in {A} (n : nat) (l : list A) (x : A) : In x (take n l) -> In x l.
Proof.
  intros H. rewrite <- (take_drop n l). apply in_or_app. left. exact H.
Qed.

Lemma in_slice_to {A} (l : list A) (count : Z) (x : A) :
  In x (slice_to l count) -> In x l.
Proof. unfold slice_to. apply in_take_in. Qed.

Lemma in_insert_by_distance (x y : stop * float) (l : list (stop * float)) :
  In y (insert_by_distance x l) <-> y = x \/ In y l.
Proof.
  induction l as [|z l IH]; simpl.
  - split; intros H; intuition (subst; auto).
  - destruct (PrimFloat.ltb 0 (snd z - snd x)%float); simpl.
    + split; intros H; intuition (subst; auto).
    + rewrite IH. split; intros H; intuition (subst; auto).
Qed.

Lemma in_sort_fold (l acc : list (stop * float)) (y : stop * float) :
  In y (fold_left (fun acc x => insert_by_distance x acc) l acc) <-> In y l \/ In y acc.
Proof.
  revert acc; induction l as [|x l IH]; intros acc; simpl.
  - tauto.
  - rewrite IH, in_insert_by_distance. split; intros H; intuition (subst; auto).
Qed.

Lemma in_sort_by_distance (l : list (stop * float)) (y : stop * float) :
  In y (sort_by_distance l) <-> In y l.
Proof. unfold sort_by_distance. rewrite in_sort_fold. simpl. tauto. Qed.

Lemma collect_stops_fold (stops : list stop) (acc : list (string * stop)) (p : string * stop) :
  In p (fold_left collect_stops stops acc) ->
  In p acc \/ (stop_admitted (snd p) = true /\ In (snd p) stops).
Proof.
  revert acc; induction stops as [|s stops IH]; intros acc H; simpl in H.
  - left; exact H.
  - apply IH in H as [H|[Ha Hin]]; [|right; split; [exact Ha | right; exact Hin]].
    unfold collect_stops in H.
    destruct (stop_admitted s) eqn:Hs; [|left; exact H].
    destruct (existsb _ acc); [left; exact H|].
    apply in_app_or in H as [H|[<-|[]]]; [left; exact H|].
    right. simpl. split; [exact Hs | left; reflexivity].
Qed.

Lemma all_stops_fold (bs : list (string * list stop)) (acc : list (string * stop))
  (p : string * stop) :
  In p (fold_left (fun acc '(_, stops) => fold_left collect_stops stops acc) bs acc) ->
  In p acc \/
  (stop_admitted (snd p) = true /\ exists key stops, In (key, stops) bs /\ In (snd p) stops).
Proof.
  revert acc; induction bs as [|[key stops] bs IH]; intros acc Hin; simpl in Hin.
  - left; exact Hin.
  - apply IH in Hin as [Hin|[Ha [key' [stops' [H1 H2]]]]].
    + apply collect_stops_fold in Hin as [Hin|[Ha Hs]]; [left; exact Hin|].
      right. split; [exact Ha|]. exists key, stops. split; [left; reflexivity | exact Hs].
    + right. split; [exact Ha|]. exists key', stops'. split; [right; exact H1 | exact H2].
Qed.

Lemma all_stops_admitted (bs : list (string * list stop)) (s : stop) :
  In s (all_stops bs) ->
  stop_admitted s = true /\ exists key stops, In (key, stops) bs /\ In s stops.
Proof.
  unfold all_stops. intros H. apply in_map_iff in H as [p [<- Hp]].
  destruct (all_stops_fold bs [] p Hp) as [[]|H]. exact H.
Qed.

Definition stops_of (res : nearest_result) : list nearest :=
  match res with
  | Stops l => l
  | _ => []
  end.

(** C10: a stop with an empty name, or whose latitude or longitude is 0,
    fails the admission test, and every returned entry is built from an
    admitted stop of the snapshot (with its distance from the user's
    location): an excluded stop never appears, however near it is. *)
Theorem find_nearest_stops_excludes_unadmitted_stops :
  forall (sin cos : float -> float) (atan2 : float -> float -> float)
         (float_to_string toFixed2 : float -> string)
         (count : option Z) (context : snapshot),
    (forall s : stop,
       stop_name s = EmptyString \/ PrimFloat.is_zero (stop_latitude s) = true
       \/ PrimFloat.is_zero (stop_longitude s) = true ->
       stop_admitted s = false) /\
    (forall e, In e (stops_of (find_nearest_stops sin cos atan2 float_to_string toFixed2
                                 count context)) ->
       exists loc s key stops,
         userLocation context = Some loc /\
         In (key, stops) (busStops context) /\ In s stops /\
         stop_admitted s = true /\
         e = nearest_entry float_to_string toFixed2
               (s, distance sin cos atan2 (lat loc) (lng loc) s)).
Proof.
  intros sin cos atan2 float_to_string toFixed2 count context. split.
  - intros s H. unfold stop_admitted, float_truthy.
    destruct H as [H|[H|H]]; rewrite H; simpl.
    + reflexivity.
    + rewrite andb_false_r. reflexivity.
    + rewrite andb_false_r. reflexivity.
  - intros e. unfold find_nearest_stops.
    destruct (userLocation context) as [loc|]; [|intros []].
    destruct (float_truthy (lat loc) && float_truthy (lng loc)); [|intros []].
    destruct (all_stops (busStops context)) as [|s0 rest] eqn:Hall; [intros []|].
    cbn [stops_of]. intros He.
    apply in_map_iff in He as [[s d] [<- Hin]].
    apply in_slice_to, in_sort_by_distance, in_map_iff in Hin as [s' [Heq Hs']].
    injection Heq as <- <-.
    rewrite <- Hall in Hs'.
    apply all_stops_admitted in Hs' as [Ha [key [stops [Hk Hs]]]].
    exists loc, s', key, stops. repeat split; assumption.
Qed.

(* ------------------------------------------------------------------ *)
(** ** Objects: [obj_set], [Object.assign] and [validUpdates] *)

(** The keys of an object, in order; a JavaScript object has each once. *)
Definition keys (fs : jsobj) : list string := map fst fs.
Arguments keys !fs /.

Lemma obj_get_obj_set (fs : jsobj) (k k' : string) (v : jsval) :
  obj_get (obj_set fs k v) k' = if String.eqb k k' then Some v else obj_get fs k'.
Proof.
  induction fs as [|[k0 v0] fs IH]; simpl.
  - destruct (String.eqb k k'); reflexivity.
  - destruct (String.eqb k0 k) eqn:E0; simpl.
    + apply String.eqb_eq in E0. subst k0.
      destruct (String.eqb k k'); reflexivity.
    + rewrite IH. destruct (String.eqb k0 k') eqn:E1; [|reflexivity].
      apply String.eqb_eq in E1. subst k'.
      destruct (String.eqb k k0) eqn:E2; [|reflexivity].
      apply String.eqb_eq in E2. subst k. rewrite String.eqb_refl in E0. discriminate.
Qed.

Lemma in_keys_obj_set (fs : jsobj) (k x : string) (v : jsval) :
  In x (keys (obj_set fs k v)) -> x = k \/ In x (keys fs).
Proof.
  induction fs as [|[k0 v0] fs IH]; simpl.
  - intros [<-|[]]. left; reflexivity.
  - destruct (String.eqb k0 k); simpl; intros [H|H]; auto.
    destruct (IH H); auto.
Qed.

Lemma keys_obj_set_nodup (fs : jsobj) (k : string) (v : jsval) :
  NoDup (keys fs) -> NoDup (keys (obj_set fs k v)).
Proof.
  induction fs as [|[k0 v0] fs IH]; simpl; intros Hnd.
  - apply NoDup_singleton.
  - apply NoDup_cons in Hnd as [Hk0 Hnd].
    destruct (String.eqb k0 k) eqn:E; simpl.
    + constructor; assumption.
    + constructor; [|exact (IH Hnd)].
      rewrite list_elem_of_In in Hk0 |- *.
      intros Hin. apply in_keys_obj_set in Hin as [->|Hin].
      * rewrite String.eqb_refl in E. discriminate.
      * exact (Hk0 Hin).
Qed.

Lemma obj_get_not_in (fs : jsobj) (k : string) :
  ~ In k (keys fs) -> obj_get fs k = None.
Proof.
  induction fs as [|[k0 v0] fs IH]; simpl; intros Hk; [reflexivity|].
  destruct (String.eqb k0 k) eqn:E.
  - apply String.eqb_eq in E. exfalso. apply Hk. left. exact E.
  - apply IH. intros H. apply Hk. right. exact H.
Qed.

(** [Object.assign(target, source)] reads each own property of [source]. *)
Lemma obj_get_obj_assign (t s : jsobj) (k : string) :
  NoDup (keys s) ->
  obj_get (obj_assign t s) k =
  match obj_get s k with Some v => Some v | None => obj_get t k end.
Proof.
  unfold obj_assign. revert t.
  induction s as [|[k0 v0] s IH]; intros t Hnd; simpl; [reflexivity|].
  apply NoDup_cons in Hnd as [Hk0 Hnd]. rewrite list_elem_of_In in Hk0.
  rewrite (IH _ Hnd), obj_get_obj_set.
  destruct (String.eqb k0 k) eqn:E.
  - apply String.eqb_eq in E. subst k0. rewrite (obj_get_not_in s k Hk0). reflexivity.
  - destruct (obj_get s k); reflexivity.
Qed.

Lemma valid_updates_fold (u acc : jsobj) (k : string) :
  NoDup (keys u) ->
  obj_get (fold_left (fun acc '(k, v) => if is_nullish v then acc else obj_set acc k v)
             u acc) k =
  match obj_get u k with
  | Some v => if is_nullish v then obj_get acc k else Some v
  | None => obj_get acc k
  end.
Proof.
  revert acc. induction u as [|[k0 v0] u IH]; intros acc Hnd; simpl; [reflexivity|].
  apply NoDup_cons in Hnd as [Hk0 Hnd]. rewrite list_elem_of_In in Hk0.
  rewrite (IH _ Hnd).
  destruct (String.eqb k0 k) eqn:E.
  - apply String.eqb_eq in E. subst k0. rewrite (obj_get_not_in u k Hk0).
    destruct (is_nullish v0); [reflexivity|].
    rewrite obj_get_obj_set, String.eqb_refl. reflexivity.
  - assert (Hacc : obj_get (if is_nullish v0 then acc else obj_set acc k0 v0) k
                    = obj_get acc k).
    { destruct (is_nullish v0); [reflexivity|]. rewrite obj_get_obj_set, E. reflexivity. }
    rewrite Hacc. reflexivity.
Qed.

Lemma obj_get_valid_updates (u : jsobj) (k : string) :
  NoDup (keys u) ->
  obj_get (valid_updates u) k =
  match obj_get u k with
  | Some v => if is_nullish v then None else Some v
  | None => None
  end.
Proof.
  intros Hnd. unfold valid_updates. rewrite (valid_updates_fold u [] k Hnd).
  destruct (obj_get u k) as [v|]; [destruct (is_nullish v)|]; reflexivity.
Qed.

Lemma valid_updates_nodup (u : jsobj) : NoDup (keys (valid_updates u)).
Proof.
  unfold valid_updates.
  assert (H : forall acc, NoDup (keys acc) ->
            NoDup (keys (fold_left (fun acc '(k, v) =>
                       if is_nullish v then acc else obj_set acc k v) u acc))).
  { induction u as [|[k v] u IH]; intros acc Hacc; simpl; [exact Hacc|].
    apply IH. destruct (is_nullish v); [exact Hacc|]. apply keys_obj_set_nodup, Hacc. }
  apply H. apply NoDup_nil_2.
Qed.

Lemma obj_assign_nodup (t s : jsobj) : NoDup (keys t) -> NoDup (keys (obj_assign t s)).
Proof.
  unfold obj_assign. revert t.
  induction s as [|[k v] s IH]; intros t Ht; simpl; [exact Ht|].
  apply IH, keys_obj_set_nodup, Ht.
Qed.

(** The object [updateContext] stores: [Object.assign(context, validUpdates,
    {lastUpdated})]. *)
Lemma obj_get_update (context updates : jsobj) (now : Z) (k : string) :
  NoDup (keys updates) ->
  obj_get (obj_assign (obj_assign context (valid_updates updates))
             [("lastUpdated", JNum now 0)]) k =
  if String.eqb k "lastUpdated" then Some (JNum now 0)
  else match obj_get updates k with
       | Some v => if is_nullish v then obj_get context k else Some v
       | None => obj_get context k
       end.
Proof.
  intros Hnd.
  rewrite obj_get_obj_assign by (apply NoDup_singleton).
  cbn [obj_get]. destruct (String.eqb "lastUpdated" k) eqn:E.
  - apply String.eqb_eq in E. subst k. reflexivity.
  - assert (E' : String.eqb k "lastUpdated" = false)
      by (rewrite String.eqb_sym; exact E).
    rewrite E'.
    rewrite obj_get_obj_assign by apply valid_updates_nodup.
    rewrite obj_get_valid_updates by exact Hnd.
    destruct (obj_get updates k) as [v|]; [destruct (is_nullish v)|]; reflexivity.
Qed.

(* ------------------------------------------------------------------ *)
(** ** Expiry *)

Lemma new_context_live (userId : string) (now : Z) :
  is_expired (new_context userId now) now = false.
Proof.
  unfold is_expired, js_gt, js_sub. simpl. unfold num_Q. simpl.
  unfold Qle_bool, Qminus, Qplus, Qopp, inject_Z. simpl.
  apply negb_false_iff. apply Z.leb_le. unfold maxContextAge. lia.
Qed.

(** The session [getUserContext] returns is never expired. *)
Definition live_session (st : store) (userId : string) (now : Z) : jsobj :=
  match st !! userId with
  | Some c => if is_expired c now then new_context userId now else c
  | None => new_context userId now
  end.

Lemma getUserContext_spec (st : store) (userId : string) (now : Z) :
  getUserContext st userId now =
  (<[userId := live_session st userId now]> st, live_session st userId now) \/
  (st !! userId = Some (live_session st userId now) /\
   getUserContext st userId now = (st, live_session st userId now)).
Proof.
  unfold getUserContext, live_session, createNewContext.
  destruct (st !! userId) as [c|] eqn:E; [|left; reflexivity].
  destruct (is_expired c now); [left; reflexivity|].
  right. split; reflexivity.
Qed.

Lemma live_session_live (st : store) (userId : string) (now : Z) :
  is_expired (live_session st userId now) now = false.
Proof.
  unfold live_session. destruct (st !! userId) as [c|]; [|apply new_context_live].
  destruct (is_expired c now) eqn:E; [apply new_context_live | exact E].
Qed.

Lemma updateContext_spec (st : store) (userId : string) (updates : jsobj) (now : Z) :
  updateContext st userId updates now =
  <[userId := obj_assign (obj_assign (live_session st userId now) (valid_updates updates))
                [("lastUpdated", JNum now 0)]]> st.
Proof.
  unfold updateContext.
  destruct (getUserContext_spec st userId now) as [->|[Hl ->]].
  - rewrite insert_insert_eq. reflexivity.
  - reflexivity.
Qed.

Lemma is_expired_obj_set (c : jsobj) (k : string) (v : jsval) (now : Z) :
  String.eqb k "lastUpdated" = false ->
  is_expired (obj_set c k v) now = is_expired c now.
Proof.
  intros Hk. unfold is_expired. rewrite obj_get_obj_set, Hk. reflexivity.
Qed.

(* ------------------------------------------------------------------ *)
(** ** [getUserContext]: expiry *)

(** C3: when the stored session's [lastUpdated] is more than 30 minutes
    before [now], [getUserContext] returns (and stores) the fresh session of
    [createNewContext], which does not depend on the expired one: empty
    message and legacy histories, no location, default preferences.  The
    operation is a total function: it always returns. *)
Theorem getUserContext_expired_session_is_fresh :
  forall (st : store) (userId : string) (c : jsobj) (lu now : Z),
    st !! userId = Some c ->
    obj_get c "lastUpdated" = Some (JNum lu 0) ->
    (now - lu > maxContextAge)%Z ->
    getUserContext st userId now
      = (<[userId := new_context userId now]> st, new_context userId now) /\
    obj_get (new_context userId now) "messageHistory" = Some (JArr []) /\
    obj_get (new_context userId now) "conversationHistory" = Some (JArr []) /\
    obj_get (new_context userId now) "userLocation" = Some JNull /\
    obj_get (new_context userId now) "preferences"
      = Some (JObj [("preferredUnits", JStr "metric");
                    ("maxNearbyStops", JNum 5 0);
                    ("notificationRadius", JNum 500 0)]).
Proof.
  intros st userId c lu now Hst Hlu Hage.
  assert (Hexp : is_expired c now = true).
  { unfold is_expired. rewrite Hlu. unfold js_gt, js_sub, js_to_number, num_Q. simpl.
    unfold Qle_bool, Qminus, Qplus, Qopp, inject_Z. simpl.
    apply negb_true_iff. apply Z.leb_gt. unfold maxContextAge in *. lia. }
  split; [|repeat split; reflexivity].
  unfold getUserContext. rewrite Hst, Hexp. reflexivity.
Qed.

(** A store whose session "u" was last updated at 0 and holds one message. *)
Definition old_session_store : store :=
  {[ "u" := obj_set (new_context "u" 0) "messageHistory" (JArr [JStr "old"]) ]}.

(** The session "u" read 30 minutes and 1 ms after its last update. *)
Lemma getUserContext_expired_session_is_fresh_witness :
  getUserContext old_session_store "u" 1800001
  = (<[ "u" := new_context "u" 1800001 ]> old_session_store, new_context "u" 1800001).
Proof.
  apply (getUserContext_expired_session_is_fresh old_session_store "u"
           (obj_set (new_context "u" 0) "messageHistory" (JArr [JStr "old"])) 0 1800001).
  - reflexivity.
  - reflexivity.
  - unfold maxContextAge. lia.
Defined.

(* ------------------------------------------------------------------ *)
(** ** [updateContext] *)

(** A session at "u", last updated at 0, located at (1, 2). *)
Definition located_session : jsobj :=
  obj_set (new_context "u" 0) "userLocation" (JObj [("lat", JNum 1 0); ("lng", JNum 2 0)]).

(** C8 fails on an expired session: the patch [{userLocation: null}] applied
    30 minutes and 1 ms after the last update leaves [userLocation] null,
    not the stored (1, 2), because [getUserContext] first replaced the
    session with a fresh one. *)
Lemma updateContext_null_patch_on_expired_session :
  obj_get located_session "userLocation"
    = Some (JObj [("lat", JNum 1 0); ("lng", JNum 2 0)]) /\
  (updateContext {[ "u" := located_session ]} "u" [("userLocation", JNull)] 1800001 !! "u")
    ≫= (fun c => obj_get c "userLocation") = Some JNull.
Proof. split; vm_compute; reflexivity. Qed.

(** C8 (amended): [updateContext] first takes the live session of
    [getUserContext] (the stored one if it is not expired, else a fresh
    one); on it, a key whose patch value is null or undefined keeps its
    value, a key with any other patch value takes that value, and
    [lastUpdated] becomes [now]. *)
Theorem updateContext_merges_non_nullish_fields :
  forall (st : store) (userId : string) (updates : jsobj) (now : Z),
    NoDup (keys updates) ->
    (exists c',
       updateContext st userId updates now = <[userId := c']> st /\
       forall k, obj_get c' k =
         if String.eqb k "lastUpdated" then Some (JNum now 0)
         else match obj_get updates k with
              | Some v => if is_nullish v then obj_get (live_session st userId now) k
                          else Some v
              | None => obj_get (live_session st userId now) k
              end) /\
    (forall c, st !! userId = Some c -> is_expired c now = false ->
       live_session st userId now = c) /\
    (forall c, st !! userId = Some c -> is_expired c now = true ->
       live_session st userId now = new_context userId now) /\
    (st !! userId = None -> live_session st userId now = new_context userId now).
Proof.
  intros st userId updates now Hnd. split; [|split; [|split]].
  - eexists. split; [apply updateContext_spec|].
    intros k. apply obj_get_update, Hnd.
  - intros c Hc He. unfold live_session. rewrite Hc, He. reflexivity.
  - intros c Hc He. unfold live_session. rewrite Hc, He. reflexivity.
  - intros Hc. unfold live_session. rewrite Hc. reflexivity.
Qed.

(** A live session located at (1, 2), patched with [{userLocation: null,
    activeBuses: ["B1"]}] one minute later. *)
Lemma updateContext_merges_non_nullish_fields_witness :
  NoDup (keys [("userLocation", JNull); ("activeBuses", JArr [JStr "B1"])]) /\
  exists c',
    updateContext {[ "u" := located_session ]} "u"
      [("userLocation", JNull); ("activeBuses", JArr [JStr "B1"])] 60000
      = <[ "u" := c' ]> {[ "u" := located_session ]} /\
    obj_get c' "userLocation" = Some (JObj [("lat", JNum 1 0); ("lng", JNum 2 0)]) /\
    obj_get c' "activeBuses" = Some (JArr [JStr "B1"]).
Proof.
  assert (Hnd : NoDup (keys [("userLocation", JNull); ("activeBuses", JArr [JStr "B1"])]))
    by (apply NoDup_cons; split; [rewrite list_elem_of_In; simpl; intros [H|[]]; discriminate H
                                  | apply NoDup_singleton]).
  split; [exact Hnd|].
  destruct (updateContext_merges_non_nullish_fields {[ "u" := located_session ]} "u"
              [("userLocation", JNull); ("activeBuses", JArr [JStr "B1"])] 60000 Hnd)
    as [[c' [Hst Hk]] [Hlive _]].
  exists c'. split; [exact Hst|].
  assert (Hl : live_session {[ "u" := located_session ]} "u" 60000 = located_session)
    by (apply Hlive; reflexivity).
  split.
  - rewrite Hk, Hl. reflexivity.
  - rewrite Hk. reflexivity.
Defined.

(* ------------------------------------------------------------------ *)
(** ** [cleanupExpiredContexts] *)

(** C6 fails on its return value: a store whose only session expired loses
    it, [cleanedCount] is 1, and the method returns [undefined]. *)
Lemma cleanupExpiredContexts_returns_undefined :
  cleanupExpiredContexts {[ "u" := new_context "u" 0 ]} 1800001 = (∅, JUndefined) /\
  cleanedCount {[ "u" := new_context "u" 0 ]} 1800001 = 1.
Proof. split; vm_compute; reflexivity. Qed.

(** C6 (amended): [cleanupExpiredContexts] deletes exactly the sessions
    whose [lastUpdated] is more than 30 minutes before [now], keeps every
    other session unchanged, and returns [undefined]; the number of deleted
    sessions ([cleanedCount], only logged) plus the number kept is the
    number there were. *)
Theorem cleanupExpiredContexts_deletes_expired :
  forall (st : store) (now : Z),
    (forall userId, fst (cleanupExpiredContexts st now) !! userId =
       match st !! userId with
       | Some c => if is_expired c now then None else Some c
       | None => None
       end) /\
    snd (cleanupExpiredContexts st now) = JUndefined /\
    cleanedCount st now + size (fst (cleanupExpiredContexts st now)) = size st.
Proof.
  intros st now. split; [|split; [reflexivity|]].
  - intros userId. unfold cleanupExpiredContexts. simpl.
    rewrite map_lookup_filter.
    destruct (st !! userId) as [c|]; simpl; [|reflexivity].
    destruct (is_expired c now); reflexivity.
  - unfold cleanedCount, cleanupExpiredContexts. simpl.
    set (P := fun (kv : string * jsobj) => is_expired kv.2 now = true).
    assert (Hf : filter (fun '(_, context) => is_expired context now = false) st
                 = filter (fun kv => ~ P kv) st).
    { apply map_filter_ext. intros i x _. unfold P. simpl.
      destruct (is_expired x now); split; congruence. }
    assert (Ht : filter (fun '(_, context) => is_expired context now = true) st
                 = filter P st).
    { apply map_filter_ext. intros i x _. unfold P. simpl. reflexivity. }
    rewrite Hf, Ht, <- map_size_disj_union by apply map_disjoint_filter_complement.
    rewrite map_filter_union_complement. reflexivity.
Qed.

(* ------------------------------------------------------------------ *)
(** ** [addMessageToHistory]: the history cap *)

(** The sessions a store may hold for [userId]: an object with each key
    once and an array [messageHistory] (what [createNewContext] builds and
    the methods keep). *)
Definition hist_wf (st : store) (userId : string) : Prop :=
  forall c, st !! userId = Some c ->
    NoDup (keys c) /\ exists h, obj_get c "messageHistory" = Some (JArr h).

(** The stored history of [userId]. *)
Definition stored_history (st : store) (userId : string) : option (list jsval) :=
  match st !! userId with
  | Some c => match obj_get c "messageHistory" with
              | Some (JArr h) => Some h
              | _ => None
              end
  | None => None
  end.

(** The history [addMessageToHistory] appends to: the one of the live session. *)
Definition live_history (st : store) (userId : string) (now : Z) : list jsval :=
  match obj_get (live_session st userId now) "messageHistory" with
  | Some (JArr h) => h
  | _ => []
  end.

(** One call [addMessageToHistory(userId, role, content, toolCalls,
    toolCallId, name)] at time [now], timestamp [ts]. *)
Record append_call : Type := mk_append_call {
  ap_role : jsval; ap_content : jsval;
  ap_toolCalls : jsval; ap_toolCallId : jsval; ap_name : jsval;
  ap_now : Z; ap_ts : string }.

(** A sequence of calls for one user: the store after each call. *)
Fixpoint run_appends (st : store) (userId : string) (ops : list append_call)
  : outcome (list store) :=
  match ops with
  | [] => Ok []
  | op :: ops' =>
      match addMessageToHistory st userId (ap_role op) (ap_content op) (ap_toolCalls op)
              (ap_toolCallId op) (ap_name op) (ap_now op) (ap_ts op) with
      | Ok st' =>
          match run_appends st' userId ops' with
          | Ok sts => Ok (st' :: sts)
          | Throw e => Throw e
          end
      | Throw e => Throw e
      end
  end.

Lemma new_context_keys (userId : string) (now : Z) : NoDup (keys (new_context userId now)).
Proof.
  unfold new_context. simpl.
  repeat (apply NoDup_cons; split; [rewrite list_elem_of_In; simpl;
    intros H; repeat (destruct H as [H|H]; [discriminate H|]); exact H|]).
  apply NoDup_nil_2.
Qed.

Lemma live_session_wf (st : store) (userId : string) (now : Z) :
  hist_wf st userId ->
  NoDup (keys (live_session st userId now)) /\
  obj_get (live_session st userId now) "messageHistory" = Some (JArr (live_history st userId now)).
Proof.
  intros Hwf.
  assert (Hnew : NoDup (keys (new_context userId now)) /\
                 obj_get (new_context userId now) "messageHistory" = Some (JArr []))
    by (split; [apply new_context_keys | reflexivity]).
  unfold live_history, live_session.
  destruct (st !! userId) as [c|] eqn:Hc; [|exact Hnew].
  destruct (is_expired c now); [exact Hnew|].
  destruct (Hwf c Hc) as [Hnd [h Hh]]. rewrite Hh. split; [exact Hnd | reflexivity].
Qed.

Lemma truncate_history_spec (h : list jsval) :
  length (truncate_history h) <= maxHistoryLength /\
  h = (take (length h - maxHistoryLength) h ++ truncate_history h)%list /\
  (maxHistoryLength <= length h -> length (truncate_history h) = maxHistoryLength).
Proof.
  unfold truncate_history.
  destruct (Nat.ltb maxHistoryLength (length h)) eqn:E.
  - apply Nat.ltb_lt in E. rewrite length_drop.
    split; [lia|]. split; [symmetry; apply take_drop | lia].
  - apply Nat.ltb_ge in E.
    replace (length h - maxHistoryLength) with 0 by lia.
    split; [exact E|]. split; [reflexivity | lia].
Qed.

Lemma addMessageToHistory_step (st : store) (userId : string)
  (role content toolCalls toolCallId name : jsval) (now : Z) (ts : string) :
  hist_wf st userId ->
  exists st',
    addMessageToHistory st userId role content toolCalls toolCallId name now ts = Ok st' /\
    hist_wf st' userId /\
    stored_history st' userId =
      Some (truncate_history (live_history st userId now
                              ++ [make_message role content ts toolCalls toolCallId name])).
Proof.
  intros Hwf.
  destruct (live_session_wf st userId now Hwf) as [Hnd Hh].
  set (c := live_session st userId now) in *.
  set (h' := truncate_history (live_history st userId now
               ++ [make_message role content ts toolCalls toolCallId name])).
  set (c' := obj_set c "messageHistory" (JArr h')).
  assert (Hnd' : NoDup (keys c')) by apply keys_obj_set_nodup, Hnd.
  assert (Hh' : obj_get c' "messageHistory" = Some (JArr h'))
    by (unfold c'; rewrite obj_get_obj_set; reflexivity).
  assert (Hstore : forall st1 : store,
    exists st',
      Ok (updateContext (<[userId := c']> st1) userId c' now) = Ok st' /\
      hist_wf st' userId /\ stored_history st' userId = Some h').
  { intros st1.
    assert (Hlive : live_session (<[userId := c']> st1) userId now = c').
    { unfold live_session. rewrite lookup_insert_eq.
      unfold c'. rewrite is_expired_obj_set by reflexivity.
      unfold c. rewrite live_session_live. reflexivity. }
    eexists. split; [reflexivity|].
    rewrite updateContext_spec, Hlive.
    set (c'' := obj_assign (obj_assign c' (valid_updates c')) [("lastUpdated", JNum now 0)]).
    assert (Hc'' : obj_get c'' "messageHistory" = Some (JArr h')).
    { unfold c''. rewrite obj_get_update by exact Hnd'. rewrite Hh'. reflexivity. }
    split.
    - intros d Hd. rewrite lookup_insert_eq in Hd. injection Hd as <-.
      split; [apply obj_assign_nodup, obj_assign_nodup, Hnd'|].
      exists h'. exact Hc''.
    - unfold stored_history. rewrite lookup_insert_eq, Hc''. reflexivity. }
  unfold addMessageToHistory.
  destruct (getUserContext_spec st userId now) as [E|[_ E]]; rewrite E; fold c;
    rewrite Hh; apply Hstore.
Qed.

(** C2: from a store whose session for [userId] (if any) is an object with
    an array history, [addMessageToHistory] succeeds, and the stored history
    afterwards is [truncate_history] of the live history with the message
    appended: at most 20 messages, the appended list being this result
    preceded by the dropped oldest entries, and exactly 20 when the
    appended list has 20 or more.  Any finite sequence of calls succeeds,
    and after each call the stored history holds at most 20 messages. *)
Theorem addMessageToHistory_keeps_last_20 :
  forall (st : store) (userId : string),
    hist_wf st userId ->
    (forall role content toolCalls toolCallId name now ts,
       exists st',
         addMessageToHistory st userId role content toolCalls toolCallId name now ts = Ok st' /\
         hist_wf st' userId /\
         stored_history st' userId =
           Some (truncate_history (live_history st userId now
                                   ++ [make_message role content ts toolCalls toolCallId name]))) /\
    (forall h : list jsval,
       length (truncate_history h) <= maxHistoryLength /\
       h = (take (length h - maxHistoryLength) h ++ truncate_history h)%list /\
       (maxHistoryLength <= length h -> length (truncate_history h) = maxHistoryLength)) /\
    (forall ops : list append_call,
       exists sts,
         run_appends st userId ops = Ok sts /\ length sts = length ops /\
         Forall (fun st' => exists h, stored_history st' userId = Some h /\
                                      length h <= maxHistoryLength) sts).
Proof.
  intros st userId Hwf. split; [|split].
  - intros. apply addMessageToHistory_step, Hwf.
  - apply truncate_history_spec.
  - intros ops. revert st Hwf. induction ops as [|op ops IH]; intros st Hwf.
    + exists []. split; [reflexivity|]. split; [reflexivity|]. constructor.
    + destruct (addMessageToHistory_step st userId (ap_role op) (ap_content op)
                  (ap_toolCalls op) (ap_toolCallId op) (ap_name op) (ap_now op) (ap_ts op) Hwf)
        as [st' [Hst [Hwf' Hh]]].
      destruct (IH st' Hwf') as [sts [Hrun [Hlen Hall]]].
      exists (st' :: sts). simpl. rewrite Hst, Hrun.
      split; [reflexivity|]. split; [simpl; rewrite Hlen; reflexivity|].
      constructor; [|exact Hall].
      eexists. split; [exact Hh|]. apply truncate_history_spec.
Qed.

(** A session "u" already holding 20 messages (m0 ... m19) gets one more. *)
Definition twenty_messages : list jsval := map (fun n => JNum (Z.of_nat n) 0) (seq 0 20).

Definition full_history_store : store :=
  {[ "u" := obj_set (new_context "u" 0) "messageHistory" (JArr twenty_messages) ]}.

Lemma addMessageToHistory_keeps_last_20_witness :
  exists st',
    addMessageToHistory full_history_store "u" (JStr "user") (JStr "hi") JNull JNull JNull
      60000 "1970-01-01T00:01:00.000Z" = Ok st' /\
    stored_history st' "u" =
      Some (drop 1 twenty_messages
            ++ [make_message (JStr "user") (JStr "hi") "1970-01-01T00:01:00.000Z"
                  JNull JNull JNull])%list.
Proof.
  assert (Hwf : hist_wf full_history_store "u").
  { intros c Hc. unfold full_history_store in Hc. rewrite lookup_singleton_eq in Hc.
    injection Hc as <-. split.
    - exact (keys_obj_set_nodup _ "messageHistory" (JArr twenty_messages)
               (new_context_keys "u" 0)).
    - exists twenty_messages. reflexivity. }
  destruct (addMessageToHistory_keeps_last_20 full_history_store "u" Hwf) as [Hstep _].
  destruct (Hstep (JStr "user") (JStr "hi") JNull JNull JNull 60000%Z "1970-01-01T00:01:00.000Z")
    as [st' [Hst [_ Hh]]].
  exists st'. split; [exact Hst|]. rewrite Hh. vm_compute. reflexivity.
Defined.

(* ------------------------------------------------------------------ *)
(** ** [getFormattedHistory] and [enforceTokenLimits]: the token budget *)

Lemma estimateTokens_acc (number_json : Z -> Z -> string) (l : list jsval) (a : nat) :
  fold_left (fun total msg => total + message_tokens number_json msg) l a
  = a + estimateTokens number_json l.
Proof.
  unfold estimateTokens. revert a.
  induction l as [|m l IH]; intros a; simpl; [lia|].
  rewrite (IH (a + message_tokens number_json m)), (IH (message_tokens number_json m)). lia.
Qed.

(** What the trimming loop does guarantee: the messages it keeps fit. *)
Lemma drop_over_limit_bound (number_json : Z -> Z -> string) (ms : list jsval) :
  estimateTokens number_json (drop_over_limit number_json ms) <= maxTokensPerContext.
Proof.
  induction ms as [|m ms IH]; simpl.
  - apply Nat.le_0_l.
  - destruct (Nat.leb (estimateTokens number_json (m :: ms)) maxTokensPerContext) eqn:E.
    + apply Nat.leb_le, E.
    + exact IH.
Qed.

(** A text of [n] letters x. *)
Fixpoint repeat_x (n : nat) : string :=
  match n with
  | O => EmptyString
  | S n' => String "x" (repeat_x n')
  end.

Definition c1_ts : string := "2026-10-17T10:00:00.000Z".
Definition c1_time : string := "17/10/2026, 3:30:00 pm".

Definition short_message : jsval :=
  make_message (JStr "user") (JStr "hi") c1_ts JNull JNull JNull.
Definition long_message : jsval :=
  make_message (JStr "user") (JStr (repeat_x 31900)) c1_ts JNull JNull JNull.

(** A session "u", started and last updated at 0, whose history is a short
    message followed by a long one. *)
Definition long_history_session : jsobj :=
  obj_set (new_context "u" 0) "messageHistory" (JArr [short_message; long_message]).
Definition long_history_store : store := {[ "u" := long_history_session ]}.

(** The system message [getFormattedHistory] builds for that session at 0. *)
Definition long_history_system (number_to_string : Z -> Z -> string) : jsval :=
  JObj [("role", JStr "system");
        ("content", JStr (buildSystemPrompt number_to_string long_history_session 0 c1_time));
        ("timestamp", JStr c1_ts)].

(** C1 fails: the trimming loop of [enforceTokenLimits] sums the messages
    without the system message, while the first test sums them with it.
    What holds is that the result fits, or it is the system message followed
    by non-system messages that fit by themselves.  On the session above,
    [getFormattedHistory] with the system message drops the short message
    and returns the system message and the long one, whose estimated total
    is over 8000 although a non-system message remains. *)
Theorem getFormattedHistory_exceeds_token_budget :
  forall number_to_string number_json : Z -> Z -> string,
    (forall messages,
       estimateTokens number_json (enforceTokenLimits number_json messages)
         <= maxTokensPerContext \/
       exists m0 rest,
         messages = m0 :: rest /\ is_system m0 = true /\
         enforceTokenLimits number_json messages = m0 :: drop_over_limit number_json rest /\
         estimateTokens number_json (drop_over_limit number_json rest)
           <= maxTokensPerContext) /\
    getFormattedHistory number_to_string number_json long_history_store "u" true 0
      c1_ts c1_time
      = (long_history_store, Ok [long_history_system number_to_string; long_message]) /\
    is_system (long_history_system number_to_string) = true /\
    is_system long_message = false /\
    maxTokensPerContext
      < estimateTokens number_json [long_history_system number_to_string; long_message].
Proof.
  intros number_to_string number_json. split.
  - intros messages. unfold enforceTokenLimits.
    destruct (Nat.leb (estimateTokens number_json messages) maxTokensPerContext) eqn:E.
    + left. apply Nat.leb_le, E.
    + destruct messages as [|m0 rest]; [left; apply Nat.le_0_l|].
      destruct (is_system m0) eqn:Hs.
      * right. exists m0, rest. split; [reflexivity|]. split; [exact Hs|].
        split; [reflexivity|]. apply drop_over_limit_bound.
      * left. apply drop_over_limit_bound.
  - split.
    + (* checked by the virtual machine, without reading back the long text *)
      match goal with
      | |- ?G => exact (@eq_refl _ (long_history_store,
                          Ok [long_history_system number_to_string; long_message]) <: G)
      end.
    + split; [vm_compute; reflexivity|]. split; [vm_compute; reflexivity|].
      apply Nat.leb_gt. vm_compute. reflexivity.
Qed.

(* ------------------------------------------------------------------ *)
(** ** The agent loop *)

Section AgentProperties.

Variable number_to_string : Z -> Z -> string.
Variable number_json : Z -> Z -> string.

(** The first-completion messages of a turn. *)
Definition first_messages (userQuery systemPrompt : string) : list jsval :=
  [JObj [("role", JStr "system"); ("content", JStr systemPrompt)];
   JObj [("role", JStr "user"); ("content", JStr userQuery)]].

(** [w'] has the events of [w] and possibly more after them. *)
Definition extends (w w' : world) : Prop := exists rest, trace w' = (trace w ++ rest)%list.

Lemma run_tool_ok (agentTools : jsval -> option (jsval -> jsobj -> outcome jsval))
  (tool_name args : jsval) (context : jsobj) (w : world) :
  exists r w', run_tool number_to_string agentTools tool_name args context w = (Ok r, w') /\
               extends w w'.
Proof.
  unfold run_tool, bind, emit, ret.
  destruct (agentTools tool_name) as [f|].
  - destruct (f args context); (eexists; eexists; split; [reflexivity | eexists; reflexivity]).
  - eexists; eexists; split; [reflexivity | exists []; rewrite app_nil_r; reflexivity].
Qed.

(** [executeTool] never throws: a throwing tool and a failing second model
    call are both caught.  Its first event is the [Executing tool] log. *)
Lemma executeTool_ok (oracle : nat -> list jsval -> option string)
  (agentTools : jsval -> option (jsval -> jsobj -> outcome jsval))
  (toolCall : jsval) (context : jsobj) (messages : list jsval) (now : Z) (w : world) :
  exists s w',
    executeTool number_to_string number_json oracle agentTools toolCall context messages now w
      = (Ok s, w') /\
    exists rest, trace w' = (trace w ++ EvExecuting (get toolCall "tool_name")
                                                    (get toolCall "arguments") :: rest)%list.
Proof.
  unfold executeTool. unfold bind at 1. unfold emit at 1. simpl.
  set (w1 := mk_world (calls w) (trace w ++ [EvExecuting (get toolCall "tool_name")
                                                      (get toolCall "arguments")])).
  destruct (run_tool_ok agentTools (get toolCall "tool_name") (get toolCall "arguments")
              context w1) as [r [w2 [Hrun [rest2 Ht2]]]].
  unfold bind. rewrite Hrun.
  unfold try_catch, makeAPICall, ret.
  destruct (oracle (calls w2) _); (eexists; eexists; split; [reflexivity|]);
    simpl; rewrite Ht2; unfold w1; simpl; rewrite <- !app_assoc; eexists; reflexivity.
Qed.

Lemma attempt_body_some (oracle : nat -> list jsval -> option string)
  (agentTools : jsval -> option (jsval -> jsobj -> outcome jsval))
  (userQuery : string) (context : jsobj) (systemPrompt : string) (now : Z)
  (w : world) (r : option string) (w' : world) :
  attempt_body number_to_string number_json oracle agentTools userQuery context
    systemPrompt now w = (Ok r, w') -> exists s, r = Some s.
Proof.
  unfold attempt_body, bind, makeAPICall, ret.
  destruct (oracle (calls w) _) as [t|]; [|discriminate].
  destruct (parse_tool_call t) as [tc|]; [|intros [= <- _]; eexists; reflexivity].
  destruct (executeTool_ok oracle agentTools tc context
              (first_messages userQuery systemPrompt) now
              (mk_world (S (calls w)) (trace w ++ [EvCall (first_messages userQuery systemPrompt)])))
    as [s [w2 [He _]]].
  unfold first_messages in He. rewrite He. intros [= <- _]. eexists; reflexivity.
Qed.

(** The retry loop always ends in a returned string once it has at least
    the iterations left that [maxRetries] allows. *)
Lemma retry_loop_ok (oracle : nat -> list jsval -> option string)
  (agentTools : jsval -> option (jsval -> jsobj -> outcome jsval))
  (userQuery : string) (context : jsobj) (systemPrompt : string) (now : Z) :
  forall fuel attempt w,
    attempt < maxRetries -> maxRetries <= attempt + fuel ->
    exists s w',
      retry_loop number_to_string number_json oracle agentTools fuel attempt userQuery
        context systemPrompt now w = (Ok (Some s), w').
Proof.
  induction fuel as [|fuel IH]; intros attempt w Hlt Hfuel.
  - unfold maxRetries in *. lia.
  - cbn [retry_loop]. replace (Nat.ltb attempt maxRetries) with true
      by (symmetry; apply Nat.ltb_lt, Hlt).
    unfold try_catch.
    destruct (attempt_body number_to_string number_json oracle agentTools userQuery
                context systemPrompt now w) as [[r|e] w1] eqn:E.
    + destruct (attempt_body_some _ _ _ _ _ _ _ _ _ E) as [s ->].
      exists s, w1. reflexivity.
    + cbv beta. destruct (Nat.leb maxRetries (S attempt)) eqn:Hle.
      * exists apology, w1. reflexivity.
      * apply Nat.leb_gt in Hle.
        unfold bind at 1, sleep, emit.
        apply IH; lia.
Qed.

End AgentProperties.

(** C7: for a query that is not restricted, when every first-completion
    call fails, [processQuery] makes exactly 3 calls, waits 1000 ms after the
    first failure and 2000 ms after the second, and returns the apology; and
    for every model and every set of tools [processQuery] returns a string:
    no exception of a model call or a tool escapes it. *)
Theorem processQuery_retries_then_apologizes :
  forall (number_to_string number_json : Z -> Z -> string)
         (oracle : nat -> list jsval -> option string)
         (agentTools : jsval -> option (jsval -> jsobj -> outcome jsval))
         (userQuery : string) (context : jsobj) (systemPrompt : string) (now : Z)
         (w : world),
    isQueryRestricted userQuery = false ->
    (forall i, oracle i (first_messages userQuery systemPrompt) = None) ->
    processQuery number_to_string number_json oracle agentTools userQuery context
      systemPrompt now w
    = (Ok (Some apology),
       mk_world (3 + calls w)
         (trace w ++ [EvCall (first_messages userQuery systemPrompt); EvSleep 1000;
                      EvCall (first_messages userQuery systemPrompt); EvSleep 2000;
                      EvCall (first_messages userQuery systemPrompt)])%list) /\
    (forall (oracle' : nat -> list jsval -> option string)
            (agentTools' : jsval -> option (jsval -> jsobj -> outcome jsval))
            (userQuery' : string) (context' : jsobj) (systemPrompt' : string) (now' : Z)
            (w' : world),
       exists s w'',
         processQuery number_to_string number_json oracle' agentTools' userQuery' context'
           systemPrompt' now' w' = (Ok (Some s), w'')).
Proof.
  intros number_to_string number_json oracle agentTools userQuery context systemPrompt now w
    Hr Hfail.
  split.
  - unfold processQuery. rewrite Hr.
    unfold first_messages in Hfail.
    cbn [retry_loop maxRetries Nat.ltb Nat.leb].
    unfold try_catch at 1, attempt_body at 1, bind at 1, makeAPICall at 1.
    rewrite Hfail. cbn [calls trace].
    unfold bind at 1, sleep at 1, emit at 1. cbn [calls trace].
    unfold try_catch at 1, attempt_body at 1, bind at 1, makeAPICall at 1.
    rewrite Hfail. cbn [calls trace].
    unfold bind at 1, sleep at 1, emit at 1. cbn [calls trace].
    unfold try_catch at 1, attempt_body at 1, bind at 1, makeAPICall at 1.
    rewrite Hfail. cbn [calls trace].
    unfold ret. unfold first_messages. rewrite <- !app_assoc. reflexivity.
  - intros oracle' agentTools' userQuery' context' systemPrompt' now' w'.
    unfold processQuery.
    destruct (isQueryRestricted userQuery').
    + exists refusal, w'. reflexivity.
    + apply retry_loop_ok; unfold maxRetries; lia.
Qed.

(** A plain query to a model that is down. *)
Lemma processQuery_retries_then_apologizes_witness :
  processQuery (fun _ _ => "0") (fun _ _ => "0") (fun _ _ => None) (fun _ => None)
    "When is the next bus?" [] "You are a transportation assistant." 0 (mk_world 0 [])
  = (Ok (Some apology),
     mk_world 3
       [EvCall (first_messages "When is the next bus?" "You are a transportation assistant.");
        EvSleep 1000;
        EvCall (first_messages "When is the next bus?" "You are a transportation assistant.");
        EvSleep 2000;
        EvCall (first_messages "When is the next bus?" "You are a transportation assistant.")]).
Proof.
  apply (processQuery_retries_then_apologizes (fun _ _ => "0") (fun _ _ => "0")
           (fun _ _ => None) (fun _ => None) "When is the next bus?" []
           "You are a transportation assistant." 0 (mk_world 0 [])).
  - vm_compute. reflexivity.
  - intros i. reflexivity.
Defined.





Section AgentDispatch.

Variable number_to_string : Z -> Z -> string.
Variable number_json : Z -> Z -> string.
Variable oracle : nat -> list jsval -> option string.
Variable agentTools : jsval -> option (jsval -> jsobj -> outcome jsval).






End AgentDispatch.





(* ================================================================== *)
(** * Properties of the rest of the code *)

Lemma getUserContext_snd (st : store) (userId : string) (now : Z) :
  snd (getUserContext st userId now) = live_session st userId now.
Proof. destruct (getUserContext_spec st userId now) as [->|[_ ->]]; reflexivity. Qed.

Lemma is_expired_at (c : jsobj) (t now : Z) :
  obj_get c "lastUpdated" = Some (JNum t 0) ->
  is_expired c now = (maxContextAge <? now - t)%Z.
Proof.
  intros H. unfold is_expired. rewrite H.
  unfold js_gt, js_sub, js_to_number, num_Q. simpl.
  unfold Qle_bool, Qminus, Qplus, Qopp, inject_Z. simpl.
  destruct (Z.ltb_spec maxContextAge (now - t)) as [Hl|Hl];
    [apply negb_true_iff, Z.leb_gt | apply negb_false_iff, Z.leb_le];
    unfold maxContextAge in *; lia.
Qed.

Lemma live_session_stored (st : store) (userId : string) (c : jsobj) (t now : Z) :
  st !! userId = Some c ->
  obj_get c "lastUpdated" = Some (JNum t 0) ->
  (now - t <= maxContextAge)%Z ->
  live_session st userId now = c.
Proof.
  intros Hc Ht Hle. unfold live_session. rewrite Hc, (is_expired_at c t now Ht).
  destruct (Z.ltb_spec maxContextAge (now - t)); [lia | reflexivity].
Qed.

(** What [updateContext] stores, property by property. *)
Lemma updateContext_lookup (st : store) (userId : string) (updates : jsobj) (now : Z) :
  NoDup (keys updates) ->
  exists c',
    updateContext st userId updates now !! userId = Some c' /\
    (NoDup (keys (live_session st userId now)) -> NoDup (keys c')) /\
    forall k, obj_get c' k =
      if String.eqb k "lastUpdated" then Some (JNum now 0)
      else match obj_get updates k with
           | Some v => if is_nullish v then obj_get (live_session st userId now) k else Some v
           | None => obj_get (live_session st userId now) k
           end.
Proof.
  intros Hnd. rewrite updateContext_spec. eexists. split; [apply lookup_insert_eq|].
  split; [intros H; apply obj_assign_nodup, obj_assign_nodup, H|].
  intros k. apply obj_get_update, Hnd.
Qed.

(** A session as the store keeps it: each key once, and the arrays the
    methods push to or read the length of. *)
Definition session_ok (c : jsobj) : Prop :=
  NoDup (keys c) /\
  (exists h, obj_get c "messageHistory" = Some (JArr h)) /\
  (exists h, obj_get c "conversationHistory" = Some (JArr h)) /\
  (exists h, obj_get c "recentSearches" = Some (JArr h)).

Definition store_ok (st : store) (userId : string) : Prop :=
  forall c, st !! userId = Some c -> session_ok c.

Lemma new_context_ok (userId : string) (now : Z) : session_ok (new_context userId now).
Proof.
  split; [apply new_context_keys|].
  split; [eexists; reflexivity|]. split; eexists; reflexivity.
Qed.

Lemma live_session_ok (st : store) (userId : string) (now : Z) :
  store_ok st userId -> session_ok (live_session st userId now).
Proof.
  intros Hok. unfold live_session.
  destruct (st !! userId) as [c|] eqn:Hc; [|apply new_context_ok].
  destruct (is_expired c now); [apply new_context_ok | exact (Hok c Hc)].
Qed.

Lemma store_ok_hist_wf (st : store) (userId : string) :
  store_ok st userId -> hist_wf st userId.
Proof. intros Hok c Hc. destruct (Hok c Hc) as [Hnd [Hh _]]. split; assumption. Qed.

(** The array [k] of the live session ([[]] when it is not an array). *)
Definition live_array (st : store) (userId : string) (now : Z) (k : string) : list jsval :=
  match obj_get (live_session st userId now) k with
  | Some (JArr h) => h
  | _ => []
  end.

Lemma session_ok_same (c c' : jsobj) :
  NoDup (keys c') ->
  (forall k, String.eqb k "lastUpdated" = false -> String.eqb k "messageHistory" = false ->
             obj_get c' k = obj_get c k) ->
  (exists h, obj_get c' "messageHistory" = Some (JArr h)) ->
  session_ok c -> session_ok c'.
Proof.
  intros Hnd Hk Hm [_ [_ [[h1 H1] [h2 H2]]]].
  split; [exact Hnd|]. split; [exact Hm|].
  split; [exists h1 | exists h2]; rewrite Hk by reflexivity; assumption.
Qed.

(** One [addMessageToHistory], property by property of the stored session. *)
Lemma addMessageToHistory_lookup (st : store) (userId : string)
  (role content toolCalls toolCallId name : jsval) (now : Z) (ts : string) :
  store_ok st userId ->
  exists st' c',
    addMessageToHistory st userId role content toolCalls toolCallId name now ts = Ok st' /\
    st' !! userId = Some c' /\ session_ok c' /\
    forall k, obj_get c' k =
      if String.eqb k "lastUpdated" then Some (JNum now 0)
      else if String.eqb k "messageHistory"
      then Some (JArr (truncate_history (live_history st userId now
                        ++ [make_message role content ts toolCalls toolCallId name])))
      else obj_get (live_session st userId now) k.
Proof.
  intros Hok.
  pose proof (live_session_ok st userId now Hok) as Hc.
  destruct (live_session_wf st userId now (store_ok_hist_wf st userId Hok)) as [Hnd Hh].
  set (c := live_session st userId now) in *.
  set (h' := truncate_history (live_history st userId now
               ++ [make_message role content ts toolCalls toolCallId name])).
  set (c' := obj_set c "messageHistory" (JArr h')).
  assert (Hnd' : NoDup (keys c')) by apply keys_obj_set_nodup, Hnd.
  assert (Hstore : forall st1 : store,
    exists st' c'',
      Ok (updateContext (<[userId := c']> st1) userId c' now) = Ok st' /\
      st' !! userId = Some c'' /\ session_ok c'' /\
      forall k, obj_get c'' k =
        if String.eqb k "lastUpdated" then Some (JNum now 0)
        else if String.eqb k "messageHistory" then Some (JArr h')
        else obj_get c k).
  { intros st1.
    assert (Hlive : live_session (<[userId := c']> st1) userId now = c').
    { unfold live_session. rewrite lookup_insert_eq.
      unfold c'. rewrite is_expired_obj_set by reflexivity.
      unfold c. rewrite live_session_live. reflexivity. }
    destruct (updateContext_lookup (<[userId := c']> st1) userId c' now Hnd')
      as [c'' [Hl [Hn Hk]]].
    rewrite Hlive in Hn, Hk.
    assert (Hk' : forall k, obj_get c'' k =
        if String.eqb k "lastUpdated" then Some (JNum now 0)
        else if String.eqb k "messageHistory" then Some (JArr h')
        else obj_get c k).
    { intros k. rewrite Hk. destruct (String.eqb k "lastUpdated"); [reflexivity|].
      unfold c'. rewrite obj_get_obj_set.
      destruct (String.eqb k "messageHistory") eqn:E.
      - apply String.eqb_eq in E. subst k. reflexivity.
      - rewrite String.eqb_sym, E. destruct (obj_get c k) as [v|]; [|reflexivity].
        destruct (is_nullish v); reflexivity. }
    exists (updateContext (<[userId := c']> st1) userId c' now), c''.
    split; [reflexivity|]. split; [exact Hl|]. split; [|exact Hk'].
    apply (session_ok_same c c''); [exact (Hn Hnd') | | | exact Hc].
    - intros k E1 E2. rewrite Hk', E1, E2. reflexivity.
    - exists h'. rewrite Hk'. reflexivity. }
  unfold addMessageToHistory.
  destruct (getUserContext_spec st userId now) as [E|[_ E]]; rewrite E; fold c;
    rewrite Hh; apply Hstore.
Qed.

Lemma self_patch (c : jsobj) (k : string) :
  match obj_get c k with
  | Some v => if is_nullish v then obj_get c k else Some v
  | None => obj_get c k
  end = obj_get c k.
Proof. destruct (obj_get c k) as [v|]; [destruct (is_nullish v)|]; reflexivity. Qed.

(** The store [getUserContext] leaves holds the session it returns. *)
Lemma getUserContext_stored (st : store) (userId : string) (now : Z) :
  fst (getUserContext st userId now) !! userId = Some (live_session st userId now) /\
  (forall u, u <> userId -> fst (getUserContext st userId now) !! u = st !! u).
Proof.
  destruct (getUserContext_spec st userId now) as [->|[Hl ->]]; simpl.
  - split; [apply lookup_insert_eq|]. intros u Hu. apply lookup_insert_ne. congruence.
  - split; [exact Hl | reflexivity].
Qed.

Lemma stored_live (st : store) (userId : string) (c : jsobj) (now : Z) :
  st !! userId = Some c -> obj_get c "lastUpdated" = Some (JNum now 0) ->
  live_session st userId now = c.
Proof. intros Hc Ht. apply (live_session_stored st userId c now now Hc Ht). unfold maxContextAge. lia. Qed.

Lemma store_ok_single (st : store) (userId : string) (c : jsobj) :
  st !! userId = Some c -> session_ok c -> store_ok st userId.
Proof. intros Hc Hok c' Hc'. rewrite Hc in Hc'. injection Hc' as <-. exact Hok. Qed.

Lemma live_history_array (st : store) (userId : string) (now : Z) :
  live_history st userId now = live_array st userId now "messageHistory".
Proof. reflexivity. Qed.

Lemma live_array_of (st : store) (userId : string) (now : Z) (c : jsobj) (k : string) (h : list jsval) :
  live_session st userId now = c -> obj_get c k = Some (JArr h) ->
  live_array st userId now k = h.
Proof. intros Hl Hk. unfold live_array. rewrite Hl, Hk. reflexivity. Qed.

Lemma addToConversationHistory_lookup (st : store) (userId : string)
  (userMessage aiResponse : jsval) (now : Z) (ts : string) :
  store_ok st userId ->
  exists st' c',
    addToConversationHistory st userId userMessage aiResponse now ts = Ok st' /\
    st' !! userId = Some c' /\ session_ok c' /\
    forall k, obj_get c' k =
      if String.eqb k "lastUpdated" then Some (JNum now 0)
      else if String.eqb k "messageHistory"
      then Some (JArr (truncate_history
                   (truncate_history (live_history st userId now
                      ++ [make_message (JStr "user") userMessage ts JNull JNull JNull])
                    ++ [make_message (JStr "assistant") aiResponse ts JNull JNull JNull])))
      else if String.eqb k "conversationHistory"
      then Some (JArr (truncate_conversation (live_array st userId now "conversationHistory"
                        ++ [conversation_entry userMessage aiResponse now])))
      else obj_get (live_session st userId now) k.
Proof.
  intros Hok.
  pose proof (live_session_ok st userId now Hok) as Hc.
  set (c := live_session st userId now) in *.
  destruct (getUserContext_stored st userId now) as [Hst1 _].
  assert (Hsnd := getUserContext_snd st userId now).
  destruct (getUserContext st userId now) as [st1 c0] eqn:Eg. simpl in Hst1, Hsnd. subst c0.
  assert (Hl1 : live_session st1 userId now = c).
  { unfold live_session at 1. rewrite Hst1. unfold c. rewrite live_session_live. reflexivity. }
  destruct (addMessageToHistory_lookup st1 userId (JStr "user") userMessage JNull JNull JNull
              now ts (store_ok_single st1 userId c Hst1 Hc))
    as [st2 [c2 [E2 [Hst2 [Hok2 Hk2]]]]].
  rewrite Hl1 in Hk2.
  assert (Hl2 : live_session st2 userId now = c2).
  { apply stored_live; [exact Hst2|]. rewrite Hk2. reflexivity. }
  destruct (addMessageToHistory_lookup st2 userId (JStr "assistant") aiResponse JNull JNull JNull
              now ts (store_ok_single st2 userId c2 Hst2 Hok2))
    as [st3 [c3 [E3 [Hst3 [Hok3 Hk3]]]]].
  rewrite Hl2 in Hk3.
  destruct Hc as [Hnd [_ [[conv Hconv] _]]].
  assert (Hc3conv : obj_get c3 "conversationHistory" = Some (JArr conv)).
  { rewrite Hk3. cbn -[obj_get]. rewrite Hk2. cbn -[obj_get]. exact Hconv. }
  assert (Hlh : live_history st1 userId now = live_history st userId now).
  { unfold live_history. rewrite Hl1. reflexivity. }
  assert (Hlh2 : live_history st2 userId now =
            truncate_history (live_history st userId now
              ++ [make_message (JStr "user") userMessage ts JNull JNull JNull])).
  { unfold live_history. rewrite Hl2, Hk2. cbn -[truncate_history]. rewrite Hlh. reflexivity. }
  set (h' := truncate_conversation (conv ++ [conversation_entry userMessage aiResponse now])).
  set (c4 := obj_set c3 "conversationHistory" (JArr h')).
  destruct Hok3 as [Hnd3 Hrest3].
  assert (Hnd4 : NoDup (keys c4)) by apply keys_obj_set_nodup, Hnd3.
  assert (Hl4 : live_session (<[userId := c4]> st3) userId now = c4).
  { apply stored_live; [apply lookup_insert_eq|].
    unfold c4. rewrite obj_get_obj_set. cbn -[obj_get]. rewrite Hk3. reflexivity. }
  destruct (updateContext_lookup (<[userId := c4]> st3) userId c4 now Hnd4)
    as [c5 [Hst5 [Hnd5 Hk5]]].
  rewrite Hl4 in Hnd5, Hk5.
  exists (updateContext (<[userId := c4]> st3) userId c4 now), c5.
  unfold addToConversationHistory. rewrite Eg, E2, E3, Hst3. cbn [default from_option id].
  rewrite Hc3conv. fold h'. fold c4.
  assert (Hk : forall k, obj_get c5 k =
      if String.eqb k "lastUpdated" then Some (JNum now 0)
      else if String.eqb k "messageHistory"
      then Some (JArr (truncate_history
                   (truncate_history (live_history st userId now
                      ++ [make_message (JStr "user") userMessage ts JNull JNull JNull])
                    ++ [make_message (JStr "assistant") aiResponse ts JNull JNull JNull])))
      else if String.eqb k "conversationHistory"
      then Some (JArr (truncate_conversation (live_array st userId now "conversationHistory"
                        ++ [conversation_entry userMessage aiResponse now])))
      else obj_get c k).
  { intros k. rewrite Hk5, self_patch.
    destruct (String.eqb k "lastUpdated") eqn:EL; [reflexivity|].
    unfold c4. rewrite obj_get_obj_set, Hk3, EL.
    destruct (String.eqb k "messageHistory") eqn:EM.
    - apply String.eqb_eq in EM. subst k. cbn -[obj_get truncate_history].
      rewrite Hlh2. reflexivity.
    - rewrite Hk2, EL, EM.
      destruct (String.eqb k "conversationHistory") eqn:EC.
      + apply String.eqb_eq in EC. subst k. cbn -[truncate_conversation].
        unfold h'. rewrite (live_array_of st userId now c "conversationHistory" conv eq_refl Hconv).
        reflexivity.
      + rewrite String.eqb_sym, EC. reflexivity. }
  split; [reflexivity|]. split; [exact Hst5|]. split; [|exact Hk].
  split; [exact (Hnd5 Hnd4)|].
  destruct (live_session_ok st userId now Hok) as [_ [_ [_ [rs Hrs]]]].
  split; [eexists; rewrite Hk; reflexivity|].
  split; [eexists; rewrite Hk; reflexivity|].
  exists rs. rewrite Hk. exact Hrs.
Qed.

(** A session stored at [now] holds [lastUpdated = now]. *)
Lemma updated_session_lastUpdated (c : jsobj) (updates : jsobj) (now : Z) :
  obj_get (obj_assign (obj_assign c (valid_updates updates)) [("lastUpdated", JNum now 0)])
    "lastUpdated" = Some (JNum now 0).
Proof.
  rewrite obj_get_obj_assign by apply NoDup_singleton. reflexivity.
Qed.

Lemma getUserContext_twice (st : store) (userId : string) (now : Z) :
  getUserContext (fst (getUserContext st userId now)) userId now
  = getUserContext st userId now.
Proof.
  destruct (getUserContext_spec st userId now) as [E|[Hl E]]; rewrite E; simpl.
  - unfold getUserContext. rewrite lookup_insert_eq, live_session_live. reflexivity.
  - exact E.
Qed.

(** X1: calling [getUserContext] twice at the same time returns the same
    session, and the second call leaves the store as the first left it. *)
Theorem getUserContext_idempotent :
  forall (st : store) (userId : string) (now : Z),
    getUserContext (fst (getUserContext st userId now)) userId now
    = getUserContext st userId now.
Proof. intros st userId now. apply getUserContext_twice. Qed.

(** X2: after [updateContext(userId, updates)], [getUserContext(userId)] at
    the same time returns the patched session and leaves the store
    unchanged. *)
Theorem updateContext_then_getUserContext :
  forall (st : store) (userId : string) (updates : jsobj) (now : Z),
    getUserContext (updateContext st userId updates now) userId now
    = (updateContext st userId updates now,
       obj_assign (obj_assign (live_session st userId now) (valid_updates updates))
         [("lastUpdated", JNum now 0)]).
Proof.
  intros st userId updates now. rewrite updateContext_spec.
  unfold getUserContext. rewrite lookup_insert_eq.
  rewrite (is_expired_at _ now now (updated_session_lastUpdated _ updates now)).
  destruct (Z.ltb_spec maxContextAge (now - now)) as [H|_];
    [unfold maxContextAge in H; lia | reflexivity].
Qed.

Lemma valid_updates_all_nullish (updates : jsobj) :
  Forall (fun kv => is_nullish (snd kv) = true) updates -> valid_updates updates = [].
Proof.
  unfold valid_updates. generalize (@nil (string * jsval)) as acc.
  induction updates as [|[k v] u IH]; intros acc Hall; simpl; [reflexivity|].
  apply Forall_cons in Hall as [Hv Hall]. simpl in Hv. rewrite Hv.
  exact (IH acc Hall).
Qed.

(** X3: a patch whose values are all [null] or [undefined] changes nothing
    but [lastUpdated]: the stored session becomes the live session with
    [lastUpdated] set to [now] (a fresh session if the old one expired). *)
Theorem updateContext_nullish_patch_only_refreshes :
  forall (st : store) (userId : string) (updates : jsobj) (now : Z),
    Forall (fun kv => is_nullish (snd kv) = true) updates ->
    updateContext st userId updates now
    = <[userId := obj_set (live_session st userId now) "lastUpdated" (JNum now 0)]> st.
Proof.
  intros st userId updates now Hall.
  rewrite updateContext_spec, (valid_updates_all_nullish updates Hall). reflexivity.
Qed.

Lemma updateContext_nullish_patch_only_refreshes_witness :
  updateContext ∅ "u" [("userLocation", JNull); ("activeBuses", JUndefined)] 5
  = {[ "u" := obj_set (new_context "u" 5) "lastUpdated" (JNum 5 0) ]}.
Proof.
  rewrite (updateContext_nullish_patch_only_refreshes ∅ "u"
             [("userLocation", JNull); ("activeBuses", JUndefined)] 5)
    by (repeat constructor).
  reflexivity.
Defined.

(** X4: sweeping twice at the same time removes nothing more than sweeping
    once. *)
Theorem cleanupExpiredContexts_idempotent :
  forall (st : store) (now : Z),
    fst (cleanupExpiredContexts (fst (cleanupExpiredContexts st now)) now)
    = fst (cleanupExpiredContexts st now).
Proof.
  intros st now. apply map_eq. intros userId. unfold cleanupExpiredContexts. simpl.
  rewrite !map_lookup_filter.
  destruct (st !! userId) as [c|]; simpl; [|reflexivity].
  destruct (is_expired c now) eqn:E; simpl; [reflexivity|].
  unfold guard. destruct (decide (is_expired c now = false)); [|congruence].
  simpl. destruct (decide (is_expired c now = false)); [reflexivity|congruence].
Qed.

(** X5: the sweep is invisible to the sessions' users: after it,
    [getUserContext] returns for every user the session it returned
    before (an expired one being replaced by a fresh one either way). *)
Theorem cleanupExpiredContexts_preserves_live_sessions :
  forall (st : store) (now : Z) (userId : string),
    snd (getUserContext (fst (cleanupExpiredContexts st now)) userId now)
    = snd (getUserContext st userId now).
Proof.
  intros st now userId. rewrite !getUserContext_snd.
  unfold live_session, cleanupExpiredContexts. simpl. rewrite map_lookup_filter.
  destruct (st !! userId) as [c|]; simpl; [|reflexivity].
  destruct (is_expired c now) eqn:E; simpl.
  - unfold guard. destruct (decide (is_expired c now = false)); [congruence|reflexivity].
  - unfold guard. destruct (decide (is_expired c now = false)); [|congruence].
    simpl. rewrite E. reflexivity.
Qed.

(** X6: after a reset ([createNewContext], the POST /api/context/:userId/reset
    handler) at [now], a summary taken at a later time [t] while the session
    is live reports the user id, [(t - now) / 60000] whole minutes, no
    message, [lastActivity = now], no location and no recent search,
    whatever the session held before. *)
Theorem createNewContext_then_summary :
  forall (st : store) (userId : string) (now t : Z),
    (t - now <= maxContextAge)%Z ->
    getConversationSummary (fst (createNewContext st userId now)) userId t
    = (fst (createNewContext st userId now),
       Ok (mk_summary (JStr userId) (Some ((t - now) / 60000)%Z) (JNum 0 0)
             (JNum now 0) false (JNum 0 0))).
Proof.
  intros st userId now t Ht.
  unfold getConversationSummary, getUserContext, createNewContext. simpl.
  rewrite lookup_insert_eq, (is_expired_at (new_context userId now) now t eq_refl).
  destruct (Z.ltb_spec maxContextAge (t - now)) as [H|_]; [lia|].
  unfold field. cbn -[Qfloor Qdiv inject_Z Qminus].
  repeat f_equal. unfold Qminus, Qplus, Qopp, inject_Z. simpl. lia.
Qed.

Lemma createNewContext_then_summary_witness :
  getConversationSummary (fst (createNewContext ∅ "u" 0)) "u" 150000
  = (fst (createNewContext ∅ "u" 0),
     Ok (mk_summary (JStr "u") (Some 2%Z) (JNum 0 0) (JNum 0 0) false (JNum 0 0))).
Proof.
  exact (createNewContext_then_summary ∅ "u" 0 150000
           ltac:(unfold maxContextAge; lia)).
Defined.

(** X7: GET /api/conversation/:userId on a session the store keeps: it
    never fails; the summary and the recent history read the same live
    session, the summary counting its messages and the recent history
    being its last ten messages (all of them when there are at most ten);
    a user without a live session gets a fresh session, stored, reported
    as active with no message. *)
Theorem get_conversation_recent_history :
  forall (st : store) (userId : string) (now : Z),
    store_ok st userId ->
    (exists s,
       get_conversation st userId now
       = (fst (getUserContext st userId now),
          Ok (s, JArr (drop (length (live_history st userId now) - 10)
                             (live_history st userId now)),
              js_gt (Some (inject_Z (5 * 60 * 1000)))
                (js_sub (Some (inject_Z now))
                   (js_to_number (field (live_session st userId now) "lastUpdated"))))) /\
       su_messageCount s = JNum (Z.of_nat (length (live_history st userId now))) 0 /\
       su_lastActivity s = field (live_session st userId now) "lastUpdated") /\
    (live_session st userId now = new_context userId now ->
     exists s,
       get_conversation st userId now
       = (<[userId := new_context userId now]> st, Ok (s, JArr [], true)) /\
       su_messageCount s = JNum 0 0).
Proof.
  intros st userId now Hok.
  assert (Hmain : exists s,
       get_conversation st userId now
       = (fst (getUserContext st userId now),
          Ok (s, JArr (drop (length (live_history st userId now) - 10)
                             (live_history st userId now)),
              js_gt (Some (inject_Z (5 * 60 * 1000)))
                (js_sub (Some (inject_Z now))
                   (js_to_number (field (live_session st userId now) "lastUpdated"))))) /\
       su_messageCount s = JNum (Z.of_nat (length (live_history st userId now))) 0 /\
       su_lastActivity s = field (live_session st userId now) "lastUpdated").
  { destruct (live_session_ok st userId now Hok) as [_ [[h Hh] [_ [rs Hrs]]]].
    assert (Hlh : live_history st userId now = h) by (unfold live_history; rewrite Hh; reflexivity).
    rewrite Hlh.
    pose proof (getUserContext_twice st userId now) as Htwice.
    pose proof (getUserContext_snd st userId now) as Hsnd.
    unfold get_conversation, getConversationSummary.
    destruct (getUserContext st userId now) as [st1 c] eqn:E. simpl in Hsnd. subst c.
    simpl in Htwice. rewrite Htwice.
    unfold field. rewrite Hh, Hrs. simpl.
    eexists. split; [reflexivity|]. split; reflexivity. }
  split; [exact Hmain|].
  intros Hnew. destruct Hmain as [s [E [Hc _]]].
  exists s. rewrite E. unfold live_history in Hc |- *. rewrite Hnew in Hc |- *.
  split; [|exact Hc].
  assert (Hact : js_gt (Some (inject_Z (5 * 60 * 1000)))
                   (js_sub (Some (inject_Z now))
                      (js_to_number (field (new_context userId now) "lastUpdated"))) = true).
  { unfold field. simpl. unfold js_gt, js_sub, num_Q. simpl.
    unfold Qle_bool, Qminus, Qplus, Qopp, inject_Z. simpl.
    apply negb_true_iff, Z.leb_gt. lia. }
  rewrite Hact.
  destruct (getUserContext_spec st userId now) as [->|[Hl ->]]; rewrite Hnew; simpl;
    [reflexivity|].
  rewrite Hnew in Hl. rewrite insert_id by exact Hl. reflexivity.
Qed.

Lemma truncate_conversation_spec (h : list jsval) (e : jsval) :
  length (truncate_conversation (h ++ [e])) <= 10 /\
  last (truncate_conversation (h ++ [e])) = Some e /\
  (h ++ [e] = take (length (h ++ [e]) - 10) (h ++ [e]) ++ truncate_conversation (h ++ [e]))%list.
Proof.
  unfold truncate_conversation. rewrite length_app. simpl.
  destruct (Nat.ltb 10 (length h + 1)) eqn:E.
  - apply Nat.ltb_lt in E. rewrite length_drop, length_app. simpl.
    split; [lia|]. split; [|symmetry; apply take_drop].
    rewrite drop_app_le by lia. apply last_snoc.
  - apply Nat.ltb_ge in E. split; [rewrite length_app; simpl; lia|].
    split; [apply last_snoc|].
    replace (length h + 1 - 10) with 0 by lia. reflexivity.
Qed.

(** X8: [addToConversationHistory] on a session the store keeps: it
    succeeds; the stored session has the user's message and then the reply
    appended to its message history (each append capped at 20), the entry
    [{timestamp, userMessage, aiResponse}] appended to its legacy history,
    which keeps at most its last 10 entries, [lastUpdated] set to [now],
    and every other property as the live session had it. *)
Theorem addToConversationHistory_appends_both_histories :
  forall (st : store) (userId : string) (userMessage aiResponse : jsval) (now : Z)
         (ts : string),
    store_ok st userId ->
    exists st' c' conv,
      addToConversationHistory st userId userMessage aiResponse now ts = Ok st' /\
      st' !! userId = Some c' /\
      obj_get c' "messageHistory"
        = Some (JArr (truncate_history
                   (truncate_history (live_history st userId now
                      ++ [make_message (JStr "user") userMessage ts JNull JNull JNull])
                    ++ [make_message (JStr "assistant") aiResponse ts JNull JNull JNull]))) /\
      obj_get c' "conversationHistory" = Some (JArr conv) /\
      length conv <= 10 /\
      last conv = Some (conversation_entry userMessage aiResponse now) /\
      (live_array st userId now "conversationHistory"
         ++ [conversation_entry userMessage aiResponse now])%list
        = (take (length (live_array st userId now "conversationHistory") + 1 - 10)
             (live_array st userId now "conversationHistory") ++ conv)%list /\
      obj_get c' "lastUpdated" = Some (JNum now 0) /\
      (forall k, k <> "lastUpdated" -> k <> "messageHistory" -> k <> "conversationHistory" ->
         obj_get c' k = obj_get (live_session st userId now) k).
Proof.
  intros st userId userMessage aiResponse now ts Hok.
  destruct (addToConversationHistory_lookup st userId userMessage aiResponse now ts Hok)
    as [st' [c' [E [Hl [_ Hk]]]]].
  set (h := live_array st userId now "conversationHistory").
  set (e := conversation_entry userMessage aiResponse now).
  destruct (truncate_conversation_spec h e) as [Hlen [Hlast Hsplit]].
  exists st', c', (truncate_conversation (h ++ [e])).
  split; [exact E|]. split; [exact Hl|].
  split; [rewrite Hk; reflexivity|].
  split; [rewrite Hk; reflexivity|].
  split; [exact Hlen|]. split; [exact Hlast|].
  split.
  - rewrite length_app in Hsplit. simpl in Hsplit.
    assert (Ht : take (length h + 1 - 10) (h ++ [e]) = take (length h + 1 - 10) h)
      by (apply take_app_le; lia).
    rewrite Ht in Hsplit. exact Hsplit.
  - split; [rewrite Hk; reflexivity|].
    intros k H1 H2 H3. rewrite Hk.
    apply String.eqb_neq in H1, H2, H3. rewrite H1, H2, H3. reflexivity.
Qed.

Lemma truncate_history_drop (l : list jsval) :
  truncate_history l = drop (length l - maxHistoryLength) l.
Proof.
  unfold truncate_history. destruct (Nat.ltb maxHistoryLength (length l)) eqn:E;
    [reflexivity|]. apply Nat.ltb_ge in E. replace (length l - maxHistoryLength) with 0 by lia.
  reflexivity.
Qed.

(** Capping, appending and capping again is appending and capping once. *)
Lemma truncate_history_app (l m : list jsval) :
  truncate_history (truncate_history l ++ m) = truncate_history (l ++ m).
Proof.
  rewrite !truncate_history_drop.
  rewrite <- (drop_app_le l m (length l - maxHistoryLength)) by lia.
  rewrite drop_drop, length_drop, !length_app. f_equal. unfold maxHistoryLength. lia.
Qed.

(** The chat patch of [ai_chat_message] leaves the histories alone. *)
Lemma chat_patch_keys (userLocation activeBuses busRoutes busStops : jsval) (now : Z) :
  NoDup (keys [("userLocation", userLocation); ("activeBuses", activeBuses);
               ("busRoutes", busRoutes); ("busStops", busStops);
               ("lastActivity", JNum now 0)]).
Proof.
  simpl.
  repeat (apply NoDup_cons; split; [rewrite list_elem_of_In; simpl;
    intros H; repeat (destruct H as [H|H]; [discriminate H|]); exact H|]).
  apply NoDup_nil_2.
Qed.

Lemma getUserContext_stored_live (st : store) (userId : string) (c : jsobj) (now : Z) :
  st !! userId = Some c -> is_expired c now = false ->
  getUserContext st userId now = (st, c).
Proof. intros Hc He. unfold getUserContext. rewrite Hc, He. reflexivity. Qed.

Lemma getConversationSummary_stored (st : store) (userId : string) (c : jsobj) (now : Z)
  (h : list jsval) :
  st !! userId = Some c -> is_expired c now = false -> session_ok c ->
  obj_get c "messageHistory" = Some (JArr h) ->
  exists s, getConversationSummary st userId now = (st, Ok s) /\
            su_messageCount s = JNum (Z.of_nat (length h)) 0.
Proof.
  intros Hc He [_ [_ [_ [rs Hrs]]]] Hh.
  unfold getConversationSummary. rewrite (getUserContext_stored_live st userId c now Hc He).
  unfold field. rewrite Hh, Hrs. simpl.
  eexists. split; reflexivity.
Qed.

(** [updateContext] with a patch that has none of the arrays. *)
Lemma updateContext_other_keys (st : store) (userId : string) (updates : jsobj) (now : Z) :
  store_ok st userId -> NoDup (keys updates) ->
  obj_get updates "messageHistory" = None ->
  obj_get updates "conversationHistory" = None ->
  obj_get updates "recentSearches" = None ->
  exists c',
    updateContext st userId updates now !! userId = Some c' /\ session_ok c' /\
    obj_get c' "lastUpdated" = Some (JNum now 0) /\
    obj_get c' "messageHistory" = obj_get (live_session st userId now) "messageHistory".
Proof.
  intros Hok Hnd Hm Hc Hr.
  destruct (updateContext_lookup st userId updates now Hnd) as [c' [Hl [Hn Hk]]].
  destruct (live_session_ok st userId now Hok) as [Hnd0 [[h1 H1] [[h2 H2] [h3 H3]]]].
  exists c'. split; [exact Hl|].
  split; [|split; rewrite Hk; [reflexivity | rewrite Hm; reflexivity]].
  split; [exact (Hn Hnd0)|].
  split; [exists h1; rewrite Hk; simpl; rewrite Hm; exact H1|].
  split; [exists h2; rewrite Hk; simpl; rewrite Hc; exact H2|].
  exists h3; rewrite Hk; simpl; rewrite Hr; exact H3.
Qed.

(** X9: one chat turn ([socket.on("ai_chat_message")]) on a session the
    store keeps, when the model call ends within 30 minutes and nothing
    else runs for the user meanwhile: both parts succeed, and the stored
    message history is the live one followed by the user's message, the
    reply, the user's message again and the reply again (the handler
    records them, then [addToConversationHistory] records them a second
    time), capped to the last 20; the summary sent back counts these
    messages. *)
Theorem ai_chat_message_records_exchange_twice :
  forall (st : store) (userId : string)
         (message userLocation activeBuses busRoutes busStops response : jsval)
         (t1 : Z) (ts1 : string) (t2 : Z) (ts2 : string),
    store_ok st userId ->
    (t2 - t1 <= maxContextAge)%Z ->
    exists st1 st2 s,
      ai_chat_before st userId message userLocation activeBuses busRoutes busStops t1 ts1
        = Ok st1 /\
      ai_chat_after st1 userId message response t2 ts2 = Ok (st2, s) /\
      stored_history st2 userId
        = Some (truncate_history (live_history st userId t1
                  ++ [make_message (JStr "user") message ts1 JNull JNull JNull;
                      make_message (JStr "assistant") response ts2 JNull JNull JNull;
                      make_message (JStr "user") message ts2 JNull JNull JNull;
                      make_message (JStr "assistant") response ts2 JNull JNull JNull])) /\
      su_messageCount s
        = JNum (Z.of_nat (length (truncate_history (live_history st userId t1
                  ++ [make_message (JStr "user") message ts1 JNull JNull JNull;
                      make_message (JStr "assistant") response ts2 JNull JNull JNull;
                      make_message (JStr "user") message ts2 JNull JNull JNull;
                      make_message (JStr "assistant") response ts2 JNull JNull JNull])))) 0.
Proof.
  intros st userId message userLocation activeBuses busRoutes busStops response t1 ts1 t2 ts2
    Hok Ht.
  pose proof (live_session_ok st userId t1 Hok) as Hc.
  set (c := live_session st userId t1) in *.
  destruct (getUserContext_stored st userId t1) as [Hst0 _].
  assert (Hsnd := getUserContext_snd st userId t1).
  unfold ai_chat_before.
  destruct (getUserContext st userId t1) as [st0 c0] eqn:Eg. simpl in Hst0, Hsnd. subst c0.
  fold c in Hst0.
  assert (Hl0 : live_session st0 userId t1 = c).
  { unfold live_session at 1. rewrite Hst0. unfold c. rewrite live_session_live. reflexivity. }
  set (patch := [("userLocation", if truthy userLocation then userLocation
                                  else field c "userLocation");
                 ("activeBuses", activeBuses); ("busRoutes", busRoutes);
                 ("busStops", busStops); ("lastActivity", JNum t1 0)]).
  destruct (updateContext_other_keys st0 userId patch t1
              (store_ok_single st0 userId c Hst0 Hc) (chat_patch_keys _ _ _ _ _)
              eq_refl eq_refl eq_refl)
    as [c1 [Hst1 [Hok1 [Hlu1 Hmh1]]]].
  rewrite Hl0 in Hmh1.
  set (st1' := updateContext st0 userId patch t1) in *.
  destruct Hc as [_ [[h Hh] _]].
  assert (Hlh : live_history st userId t1 = h) by (unfold live_history; fold c; rewrite Hh; reflexivity).
  assert (Hl1 : live_session st1' userId t1 = c1) by (apply stored_live; assumption).
  destruct (addMessageToHistory_lookup st1' userId (JStr "user") message JNull JNull JNull t1 ts1
              (store_ok_single st1' userId c1 Hst1 Hok1))
    as [stA [cA [EA [HstA [HokA HkA]]]]].
  rewrite Hl1 in HkA.
  assert (HlhA : live_history st1' userId t1 = h).
  { unfold live_history. rewrite Hl1, Hmh1, Hh. reflexivity. }
  rewrite HlhA in HkA.
  exists stA.
  assert (HlA : live_session stA userId t2 = cA).
  { apply (live_session_stored stA userId cA t1 t2 HstA); [rewrite HkA; reflexivity | exact Ht]. }
  destruct (addMessageToHistory_lookup stA userId (JStr "assistant") response JNull JNull JNull
              t2 ts2 (store_ok_single stA userId cA HstA HokA))
    as [stB [cB [EB [HstB [HokB HkB]]]]].
  rewrite HlA in HkB.
  assert (HlhB : live_history stA userId t2 =
            truncate_history (h ++ [make_message (JStr "user") message ts1 JNull JNull JNull])).
  { unfold live_history. rewrite HlA, HkA. reflexivity. }
  rewrite HlhB in HkB.
  assert (HlB : live_session stB userId t2 = cB) by (apply stored_live; [exact HstB | rewrite HkB; reflexivity]).
  destruct (addToConversationHistory_lookup stB userId message response t2 ts2
              (store_ok_single stB userId cB HstB HokB))
    as [stC [cC [EC [HstC [HokC HkC]]]]].
  rewrite HlB in HkC.
  assert (HlhC : live_history stB userId t2 =
            truncate_history (truncate_history
              (h ++ [make_message (JStr "user") message ts1 JNull JNull JNull])
              ++ [make_message (JStr "assistant") response ts2 JNull JNull JNull])).
  { unfold live_history. rewrite HlB, HkB. reflexivity. }
  rewrite HlhC in HkC.
  set (H4 := truncate_history (live_history st userId t1
                  ++ [make_message (JStr "user") message ts1 JNull JNull JNull;
                      make_message (JStr "assistant") response ts2 JNull JNull JNull;
                      make_message (JStr "user") message ts2 JNull JNull JNull;
                      make_message (JStr "assistant") response ts2 JNull JNull JNull])).
  assert (HmC : obj_get cC "messageHistory" = Some (JArr H4)).
  { rewrite HkC. simpl. unfold H4. rewrite Hlh.
    repeat (rewrite <- app_assoc || rewrite truncate_history_app).
    reflexivity. }
  assert (HeC : is_expired cC t2 = false).
  { rewrite (is_expired_at cC t2 t2) by (rewrite HkC; reflexivity).
    apply Z.ltb_ge. unfold maxContextAge. lia. }
  destruct (getConversationSummary_stored stC userId cC t2 H4 HstC HeC HokC HmC)
    as [s [ES Hs]].
  exists stC, s. split; [exact EA|].
  split.
  - unfold ai_chat_after. rewrite EB, EC, ES. reflexivity.
  - split; [|exact Hs]. unfold stored_history. rewrite HstC, HmC. reflexivity.
Qed.

(** X10: the token estimate of a concatenation is the sum of the estimates. *)
Theorem estimateTokens_app :
  forall (number_json : Z -> Z -> string) (l1 l2 : list jsval),
    estimateTokens number_json (l1 ++ l2)%list
    = estimateTokens number_json l1 + estimateTokens number_json l2.
Proof.
  intros number_json l1 l2. unfold estimateTokens at 1.
  rewrite fold_left_app. fold (estimateTokens number_json l1).
  apply estimateTokens_acc.
Qed.

Lemma drop_over_limit_drop (number_json : Z -> Z -> string) (ms : list jsval) :
  exists k, drop_over_limit number_json ms = drop k ms.
Proof.
  induction ms as [|m ms [k IH]]; simpl.
  - exists 0. reflexivity.
  - destruct (Nat.leb (estimateTokens number_json (m :: ms)) maxTokensPerContext).
    + exists 0. reflexivity.
    + exists (S k). exact IH.
Qed.

(** X11: [enforceTokenLimits] only drops messages from the front: its
    result is a suffix of the input, except that a leading system message
    is always kept, followed by a suffix of the other messages. *)
Theorem enforceTokenLimits_keeps_suffix :
  forall (number_json : Z -> Z -> string) (messages : list jsval),
    (forall m0 rest, messages = m0 :: rest -> is_system m0 = true ->
       exists k, enforceTokenLimits number_json messages = m0 :: drop k rest) /\
    ((forall m0 rest, messages = m0 :: rest -> is_system m0 = false) ->
       exists k, enforceTokenLimits number_json messages = drop k messages).
Proof.
  intros number_json messages. unfold enforceTokenLimits.
  destruct (Nat.leb (estimateTokens number_json messages) maxTokensPerContext).
  - split.
    + intros m0 rest -> _. exists 0. reflexivity.
    + intros _. exists 0. reflexivity.
  - split.
    + intros m0 rest -> Hs. rewrite Hs.
      destruct (drop_over_limit_drop number_json rest) as [k Hk]. exists k. rewrite Hk.
      reflexivity.
    + intros Hns. destruct messages as [|m0 rest]; [exists 0; reflexivity|].
      rewrite (Hns m0 rest eq_refl). apply drop_over_limit_drop.
Qed.

(** X12: when the first message is not a system message (as with
    [getFormattedHistory(userId, false)] on the user and assistant history
    the server keeps), the result of [enforceTokenLimits] fits the
    8000-token budget. *)
Theorem enforceTokenLimits_fits_without_system :
  forall (number_json : Z -> Z -> string) (messages : list jsval),
    (forall m0 rest, messages = m0 :: rest -> is_system m0 = false) ->
    estimateTokens number_json (enforceTokenLimits number_json messages)
      <= maxTokensPerContext.
Proof.
  intros number_json messages Hns. unfold enforceTokenLimits.
  destruct (Nat.leb (estimateTokens number_json messages) maxTokensPerContext) eqn:E.
  - apply Nat.leb_le, E.
  - destruct messages as [|m0 rest]; [apply Nat.le_0_l|].
    rewrite (Hns m0 rest eq_refl). apply drop_over_limit_bound.
Qed.

Lemma enforceTokenLimits_fits_without_system_witness :
  estimateTokens (fun _ _ => "0")
    (enforceTokenLimits (fun _ _ => "0") [make_message (JStr "user") (JStr "hi") "t" JNull JNull JNull; make_message (JStr "assistant") (JStr "hello") "t" JNull JNull JNull])
    <= maxTokensPerContext.
Proof.
  apply (enforceTokenLimits_fits_without_system (fun _ _ => "0")
           [make_message (JStr "user") (JStr "hi") "t" JNull JNull JNull; make_message (JStr "assistant") (JStr "hello") "t" JNull JNull JNull]).
  intros m0 rest H. injection H as <- _. vm_compute. reflexivity.
Defined.

Lemma lower_unit_idem (c : ascii) : lower_unit (lower_unit c) = lower_unit c.
Proof.
  unfold lower_unit.
  destruct (Nat.leb 65 (nat_of_ascii c) && Nat.leb (nat_of_ascii c) 90) eqn:E.
  - apply andb_true_iff in E as [E1 E2]. apply Nat.leb_le in E1, E2.
    rewrite nat_ascii_embedding by lia.
    replace (Nat.leb 65 (nat_of_ascii c + 32) && Nat.leb (nat_of_ascii c + 32) 90) with false.
    + reflexivity.
    + symmetry. apply andb_false_iff. right. apply Nat.leb_gt. lia.
  - rewrite E. reflexivity.
Qed.

Lemma toLowerCase_idem (s : string) : toLowerCase (toLowerCase s) = toLowerCase s.
Proof. induction s as [|c s IH]; simpl; [reflexivity|]. rewrite lower_unit_idem, IH. reflexivity. Qed.

Lemma toLowerCase_append (s t : string) : toLowerCase (s ++ t) = toLowerCase s ++ toLowerCase t.
Proof. induction s as [|c s IH]; simpl; [reflexivity|]. rewrite IH. reflexivity. Qed.

Lemma prefix_append (p s t : string) : String.prefix p s = true -> String.prefix p (s ++ t) = true.
Proof.
  revert s. induction p as [|a p IH]; intros s H; [destruct (s ++ t); reflexivity|].
  destruct s as [|b s]; [discriminate|]. simpl in *.
  destruct (ascii_dec a b); [apply IH, H | discriminate].
Qed.

Lemma includes_append_l (s t w : string) : includes s w = true -> includes (s ++ t) w = true.
Proof.
  induction s as [|c s IH]; intros H.
  - simpl in H. destruct w; [|discriminate]. destruct t; reflexivity.
  - simpl in H |- *. apply orb_true_iff in H as [H|H]; apply orb_true_iff.
    + left. exact (prefix_append w (String c s) t H).
    + right. apply IH, H.
Qed.

Lemma includes_append_r (s t w : string) : includes t w = true -> includes (s ++ t) w = true.
Proof.
  induction s as [|c s IH]; intros H; simpl; [exact H|].
  apply orb_true_iff. right. apply IH, H.
Qed.

(** X13: the restriction test ignores letter case: a query and its
    lowercased form are restricted alike ("MOOVIT" as "moovit"). *)
Theorem isQueryRestricted_case_insensitive :
  forall userQuery : string,
    isQueryRestricted (toLowerCase userQuery) = isQueryRestricted userQuery.
Proof. intros userQuery. unfold isQueryRestricted. rewrite toLowerCase_idem. reflexivity. Qed.

(** X14: a text that contains a restricted query is restricted: whatever is
    written before or after a restricted word does not lift the refusal. *)
Theorem isQueryRestricted_extends :
  forall before userQuery after : string,
    isQueryRestricted userQuery = true ->
    isQueryRestricted (before ++ userQuery ++ after) = true.
Proof.
  intros before userQuery after H. unfold isQueryRestricted in *.
  apply existsb_exists in H as [word [Hin Hw]].
  apply existsb_exists. exists word. split; [exact Hin|].
  rewrite !toLowerCase_append. apply includes_append_r, includes_append_l, Hw.
Qed.

Lemma isQueryRestricted_extends_witness :
  isQueryRestricted ("Is " ++ "Moovit" ++ " better?") = true.
Proof. apply isQueryRestricted_extends. vm_compute. reflexivity. Defined.

Section CallBound.

Variable number_to_string : Z -> Z -> string.
Variable number_json : Z -> Z -> string.
Variable oracle : nat -> list jsval -> option string.
Variable agentTools : jsval -> option (jsval -> jsobj -> outcome jsval).

Lemma run_tool_calls (tool_name args : jsval) (context : jsobj) (w : world) r w' :
  run_tool number_to_string agentTools tool_name args context w = (r, w') ->
  calls w' = calls w.
Proof.
  unfold run_tool, bind, emit, ret.
  destruct (agentTools tool_name) as [f|]; [destruct (f args context)|];
    intros [= _ <-]; reflexivity.
Qed.

Lemma executeTool_calls (toolCall : jsval) (context : jsobj) (messages : list jsval)
  (now : Z) (w : world) r w' :
  executeTool number_to_string number_json oracle agentTools toolCall context messages now w
    = (r, w') ->
  calls w' = S (calls w).
Proof.
  unfold executeTool. unfold bind at 1. unfold emit at 1.
  set (w1 := mk_world (calls w) (trace w ++ [EvExecuting (get toolCall "tool_name")
                                                      (get toolCall "arguments")])).
  unfold bind.
  destruct (run_tool number_to_string agentTools (get toolCall "tool_name")
              (get toolCall "arguments") context w1) as [[t|e] w2] eqn:Er.
  - apply run_tool_calls in Er. unfold w1 in Er. simpl in Er.
    unfold try_catch, makeAPICall, ret.
    destruct (oracle (calls w2) _); intros [= _ <-]; simpl; rewrite Er; reflexivity.
  - unfold run_tool, bind, emit, ret in Er.
    destruct (agentTools _) as [f|]; [destruct (f _ _)|]; discriminate.
Qed.

(** An attempt that throws made one call (the first completion failed);
    one that returns made at most two. *)
Lemma attempt_body_calls (userQuery : string) (context : jsobj) (systemPrompt : string)
  (now : Z) (w : world) r w' :
  attempt_body number_to_string number_json oracle agentTools userQuery context
    systemPrompt now w = (r, w') ->
  match r with
  | Ok _ => calls w' <= S (S (calls w))
  | Throw _ => calls w' = S (calls w)
  end.
Proof.
  unfold attempt_body, bind at 1, makeAPICall.
  destruct (oracle (calls w) _) as [t|].
  - destruct (parse_tool_call t) as [tc|].
    + destruct (executeTool_ok number_to_string number_json oracle agentTools tc context
                  (first_messages userQuery systemPrompt) now
                  (mk_world (S (calls w))
                     (trace w ++ [EvCall (first_messages userQuery systemPrompt)])))
        as [s [w2 [He _]]].
      unfold first_messages in He. unfold bind. rewrite He.
      apply executeTool_calls in He. simpl in He.
      unfold ret. intros [= <- <-]. lia.
    + unfold ret. intros [= <- <-]. simpl. lia.
  - intros [= <- <-]. reflexivity.
Qed.

Lemma retry_loop_calls (userQuery : string) (context : jsobj) (systemPrompt : string)
  (now : Z) :
  forall fuel attempt w r w',
    retry_loop number_to_string number_json oracle agentTools fuel attempt userQuery
      context systemPrompt now w = (r, w') ->
    calls w' <= calls w + S fuel.
Proof.
  induction fuel as [|fuel IH]; intros attempt w r w'.
  - cbn [retry_loop]. unfold ret. intros [= _ <-]. lia.
  - cbn [retry_loop]. destruct (Nat.ltb attempt maxRetries); [|unfold ret; intros [= _ <-]; lia].
    unfold try_catch.
    destruct (attempt_body number_to_string number_json oracle agentTools userQuery
                context systemPrompt now w) as [[a|e] w1] eqn:E;
      apply attempt_body_calls in E.
    + intros [= _ <-]. lia.
    + cbv beta. destruct (Nat.leb maxRetries (S attempt)).
      * unfold ret. intros [= _ <-]. lia.
      * unfold bind at 1, sleep, emit. intros Hr. apply IH in Hr. simpl in Hr. lia.
Qed.

End CallBound.

(** X15: one query costs the model at most four calls: a failed attempt
    makes one call (its first completion failed), only the last attempt
    can succeed, with at most a second call after a tool; and the query
    always resolves to a string. *)
Theorem processQuery_at_most_four_calls :
  forall (number_to_string number_json : Z -> Z -> string)
         (oracle : nat -> list jsval -> option string)
         (agentTools : jsval -> option (jsval -> jsobj -> outcome jsval))
         (userQuery : string) (context : jsobj) (systemPrompt : string) (now : Z)
         (w : world),
    exists s w',
      processQuery number_to_string number_json oracle agentTools userQuery context
        systemPrompt now w = (Ok (Some s), w') /\
      calls w' <= calls w + 4.
Proof.
  intros number_to_string number_json oracle agentTools userQuery context systemPrompt now w.
  unfold processQuery. destruct (isQueryRestricted userQuery).
  - exists refusal, w. split; [reflexivity | lia].
  - destruct (retry_loop_ok number_to_string number_json oracle agentTools userQuery context
                systemPrompt now maxRetries 0 w) as [s [w' E]]; [unfold maxRetries; lia..|].
    exists s, w'. split; [exact E|].
    apply retry_loop_calls in E. unfold maxRetries in E. lia.
Qed.


(** Which JSON values ToString rejects: an object with an own
    [toString] property, or an array with such a value inside. *)
Fixpoint to_string_throws (v : jsval) : bool :=
  match v with
  | JObj fs => match obj_get fs "toString" with Some _ => true | None => false end
  | JArr xs =>
      let fix go (xs : list jsval) : bool :=
        match xs with
        | [] => false
        | x :: xs' => to_string_throws x || go xs'
        end in
      go xs
  | _ => false
  end.

Lemma js_to_string_checked_throws (number_to_string : Z -> Z -> string) :
  forall v, (exists e, js_to_string_checked number_to_string v = Throw e) <->
            to_string_throws v = true.
Proof.
  fix IH 1. intros v. destruct v as [| | b | m ex | s | xs | fs].
  1-5: simpl; split; [intros [e' H]; discriminate | discriminate].
  - revert xs. fix IHl 1. intros [|x xs].
    + simpl. split; [intros [e' H]; discriminate | discriminate].
    + assert (Hx : (exists e, match x with
                              | JUndefined | JNull => Ok EmptyString
                              | _ => js_to_string_checked number_to_string x
                              end = Throw e) <-> to_string_throws x = true).
      { pose proof (IH x) as Hix.
        destruct x; try exact Hix; simpl; split; (intros [e' H]; discriminate) || discriminate. }
      specialize (IHl xs). cbn [js_to_string_checked to_string_throws] in IHl |- *.
      destruct (match x with
                | JUndefined | JNull => Ok EmptyString
                | _ => js_to_string_checked number_to_string x
                end) as [sx|ex] eqn:Ex.
      * assert (Hf : to_string_throws x = false).
        { destruct (to_string_throws x); [|reflexivity].
          destruct (proj2 Hx eq_refl) as [e' He']. discriminate. }
        rewrite Hf, orb_false_l, <- IHl.
        destruct (_ xs) as [ss|e']; split; intros [e'' H]; try discriminate; eexists; reflexivity.
      * assert (Ht : to_string_throws x = true) by (apply Hx; eexists; reflexivity).
        rewrite Ht. split; [reflexivity | intros _; eexists; reflexivity].
  - simpl. destruct (obj_get fs "toString").
    + split; [reflexivity | intros _; eexists; reflexivity].
    + split; [intros [e' H]; discriminate | discriminate].
Qed.


(** X17: asking for a route from a stop to itself never gives a route: the
    first stop matching both names is the same, and a route qualifies only
    when the origin comes strictly first. *)
Theorem find_routes_same_stop :
  forall (stopName : string) (context : snapshot),
    exists message, find_routes stopName stopName context = NoRoutes message.
Proof.
  intros stopName context.
  assert (Hnil : flat_map (route_candidate (toLowerCase stopName) (toLowerCase stopName))
                   (busRoutes context) = []).
  { induction (busRoutes context) as [|r rs IH]; simpl; [reflexivity|].
    rewrite IH, app_nil_r. unfold route_candidate.
    destruct (findIndex _ _) as [i|]; [|reflexivity].
    rewrite Nat.ltb_irrefl. reflexivity. }
  unfold find_routes. rewrite Hnil. eexists. reflexivity.
Qed.

Lemma insert_by_distance_perm (x : stop * float) (l : list (stop * float)) :
  Permutation (insert_by_distance x l) (x :: l).
Proof.
  induction l as [|y l IH]; simpl; [reflexivity|].
  destruct (_ <? _)%float; [reflexivity|].
  rewrite IH. apply perm_swap.
Qed.

Lemma sort_by_distance_perm (l : list (stop * float)) :
  Permutation (sort_by_distance l) l.
Proof.
  unfold sort_by_distance.
  assert (H : forall acc, Permutation
            (fold_left (fun acc x => insert_by_distance x acc) l acc) (l ++ acc)).
  { induction l as [|x l IH]; intros acc; simpl; [reflexivity|].
    rewrite IH, insert_by_distance_perm. symmetry. apply Permutation_middle. }
  rewrite H, app_nil_r. reflexivity.
Qed.

Definition stop_key (s : stop) : string := toLowerCase (stop_name s).

Definition keyed (acc : list (string * stop)) : Prop :=
  map fst acc = map (fun p => stop_key (snd p)) acc /\ NoDup (map fst acc).

Lemma collect_stops_keyed (stops : list stop) (acc : list (string * stop)) :
  keyed acc -> keyed (fold_left collect_stops stops acc).
Proof.
  revert acc. induction stops as [|s stops IH]; intros acc [Hm Hn]; simpl; [split; assumption|].
  apply IH. unfold collect_stops.
  destruct (stop_admitted s); [|split; assumption].
  destruct (existsb _ acc) eqn:E; [split; assumption|].
  unfold keyed. rewrite !map_app. simpl. split.
  - rewrite Hm. reflexivity.
  - apply NoDup_app. split; [exact Hn|]. split; [|apply NoDup_singleton].
    intros k Hk Hk'. apply list_elem_of_singleton in Hk'. subst k.
    apply list_elem_of_In, in_map_iff in Hk as [[k' v] [Hk Hin]]. simpl in Hk. subst k'.
    assert (Ht : existsb (fun '(k, _) => String.eqb k (stop_key s)) acc = true).
    { apply existsb_exists. exists (stop_key s, v). split; [exact Hin|].
      apply String.eqb_refl. }
    unfold stop_key in Ht. rewrite Ht in E. discriminate.
Qed.

Lemma all_stops_distinct_keys (bs : list (string * list stop)) :
  NoDup (map stop_key (all_stops bs)).
Proof.
  unfold all_stops.
  assert (H : forall acc, keyed acc ->
            keyed (fold_left (fun acc '(_, stops) => fold_left collect_stops stops acc) bs acc)).
  { induction bs as [|[k stops] bs IH]; intros acc Hacc; simpl; [exact Hacc|].
    apply IH, collect_stops_keyed, Hacc. }
  destruct (H [] (conj eq_refl (NoDup_nil_2))) as [Hm Hn].
  rewrite map_map, <- Hm. exact Hn.
Qed.

Lemma NoDup_take_list {A} (l : list A) (n : nat) : NoDup l -> NoDup (take n l).
Proof.
  intros H. rewrite <- (take_drop n l) in H. apply NoDup_app in H as [H _]. exact H.
Qed.

Lemma length_slice_to {A} (l : list A) (count : Z) :
  length (slice_to l count)
  = Z.to_nat (if (count <? 0)%Z then Z.max (Z.of_nat (length l) + count) 0
              else Z.min count (Z.of_nat (length l))).
Proof.
  unfold slice_to. cbv zeta. rewrite length_take.
  destruct (count <? 0)%Z eqn:E; [apply Z.ltb_lt in E|apply Z.ltb_ge in E]; lia.
Qed.

Section NearestProps.

Variable sin cos : float -> float.
Variable atan2 : float -> float -> float.
Variable float_to_string : float -> string.
Variable toFixed2 : float -> string.

(** X18: [find_nearest_stops] returns [count] stops (3 when absent), or all
    admitted stops when fewer; a negative count drops that many stops
    from the end, as [slice(0, count)] does. *)
Theorem find_nearest_stops_count :
  forall (count : option Z) (context : snapshot) (stops : list nearest),
    find_nearest_stops sin cos atan2 float_to_string toFixed2 count context = Stops stops ->
    let n := Z.of_nat (length (all_stops (busStops context))) in
    let c := default 3%Z count in
    length stops = Z.to_nat (if (c <? 0)%Z then Z.max (n + c) 0 else Z.min c n).
Proof.
  intros count context stops H n c. unfold find_nearest_stops in H.
  destruct (userLocation context) as [loc|]; [|discriminate].
  destruct (float_truthy _ && float_truthy _); [|discriminate].
  subst n c. destruct (all_stops (busStops context)) as [|s0 rest] eqn:Hall; [discriminate|].
  injection H as <-. rewrite length_map, length_slice_to.
  rewrite (Permutation_length (sort_by_distance_perm _)). simpl. rewrite length_map. reflexivity.
Qed.

(** X19: [find_nearest_stops] never lists two stops whose names are equal
    up to letter case: the Map keyed by the lowercased name keeps one
    stop per name, and sorting and slicing do not duplicate. *)
Theorem find_nearest_stops_distinct_names :
  forall (count : option Z) (context : snapshot) (stops : list nearest),
    find_nearest_stops sin cos atan2 float_to_string toFixed2 count context = Stops stops ->
    NoDup (map (fun e => toLowerCase (n_name e)) stops).
Proof.
  intros count context stops H. unfold find_nearest_stops in H.
  destruct (userLocation context) as [loc|]; [|discriminate].
  destruct (float_truthy _ && float_truthy _); [|discriminate].
  pose proof (all_stops_distinct_keys (busStops context)) as Hd.
  destruct (all_stops (busStops context)) as [|s0 rest] eqn:Hall; [discriminate|].
  injection H as <-. rewrite map_map. unfold slice_to. cbv zeta.
  rewrite <- firstn_map. apply NoDup_take_list.
  rewrite (Permutation_map (fun x => toLowerCase (n_name (nearest_entry float_to_string toFixed2 x)))
             (sort_by_distance_perm _)).
  simpl. rewrite map_map. exact Hd.
Qed.

End NearestProps.



Lemma trim_end_cons_keep (c : ascii) (s : string) :
  is_ws c = false -> trim_end (String c s) = String c (trim_end s).
Proof. intros H. simpl. rewrite H, andb_false_r. reflexivity. Qed.

Lemma trim_end_idem (s : string) : trim_end (trim_end s) = trim_end s.
Proof.
  induction s as [|c s IH]; [reflexivity|]. simpl.
  destruct (String.eqb (trim_end s) EmptyString && is_ws c) eqn:E; [reflexivity|].
  simpl. rewrite IH, E. reflexivity.
Qed.

Lemma trim_start_first (s : string) :
  trim_start s = EmptyString \/ exists c r, trim_start s = String c r /\ is_ws c = false.
Proof.
  induction s as [|c s IH]; [left; reflexivity|]. simpl.
  destruct (is_ws c) eqn:E; [exact IH|right; eexists _, _; split; [reflexivity|exact E]].
Qed.

(** [trim] is idempotent, so a trimmed name is left as it is by a
    second [trim]. *)
Lemma trim_trim : forall s : string, trim (trim s) = trim s.
Proof.
  intros s. unfold trim.
  destruct (trim_start_first s) as [->|[c [r [-> Hc]]]]; [reflexivity|].
  rewrite trim_end_cons_keep by exact Hc.
  change (trim_start (String c (trim_end r))) with
    (if is_ws c then trim_start (trim_end r) else String c (trim_end r)).
  rewrite Hc, trim_end_cons_keep by exact Hc. rewrite trim_end_idem. reflexivity.
Qed.

Lemma js_parseFloat_throws (number_to_string : Z -> Z -> string)
  (parseFloat : string -> float) (v : jsval) :
  (exists e, js_parseFloat number_to_string parseFloat v = Throw e) <->
  to_string_throws v = true.
Proof.
  rewrite <- (js_to_string_checked_throws number_to_string v). unfold js_parseFloat.
  destruct (js_to_string_checked number_to_string v);
    split; intros [e' H]; try discriminate; eexists; reflexivity.
Qed.

(** The entries on which [parseBusStops] throws: [null], and an object
    with a name and coordinates whose [latitude] or [longitude] cannot
    be converted to a string. *)
Definition entry_throws (x : jsval) : Prop :=
  x = JNull \/
  ((exists fs, x = JObj fs) /\
   truthy (get x "name") && truthy (get x "latitude") && truthy (get x "longitude") = true /\
   to_string_throws (get x "latitude") || to_string_throws (get x "longitude") = true).

Lemma parse_stop_entry_throws (number_to_string : Z -> Z -> string)
  (parseFloat : string -> float) (x : jsval) :
  (exists m, parse_stop_entry number_to_string parseFloat x = Throw m) <-> entry_throws x.
Proof.
  unfold entry_throws. destruct x as [| | b | m ex | s | xs | fs].
  1,3,4,6: split; [intros [m' H]; discriminate | intros [H|[[fs H] _]]; discriminate].
  - split; [intros _; left; reflexivity | intros _; eexists; reflexivity].
  - split; [|intros [H|[[fs H] _]]; discriminate].
    intros [m H]. exfalso. unfold parse_stop_entry, js_parseFloat in H. simpl in H.
    destruct (includes s ":"); [|discriminate].
    destruct (split_on ":" s) as [|name [|coords rest]]; try discriminate.
    destruct (split_on "," coords) as [|p0 [|p1 ps]]; simpl in H;
      destruct (negb _ && negb _); discriminate.
  - cbv beta iota delta [parse_stop_entry].
    destruct (truthy (get (JObj fs) "name") && truthy (get (JObj fs) "latitude")
              && truthy (get (JObj fs) "longitude")) eqn:Ha.
    + destruct (js_parseFloat number_to_string parseFloat (get (JObj fs) "latitude"))
        as [la|e1] eqn:El.
      * destruct (js_parseFloat number_to_string parseFloat (get (JObj fs) "longitude"))
          as [ln|e2] eqn:En.
        -- split; [intros [m H]; discriminate|].
           intros [H|[_ [_ Ht]]]; [discriminate|].
           apply orb_true_iff in Ht as [Ht|Ht];
             apply (js_parseFloat_throws number_to_string parseFloat) in Ht as [e' He'];
             congruence.
        -- split; [|intros _; eexists; reflexivity].
           intros _. right. split; [eexists; reflexivity|]. split; [reflexivity|].
           apply orb_true_iff. right. apply (js_parseFloat_throws number_to_string parseFloat).
           eexists. exact En.
      * split; [|intros _; eexists; reflexivity].
        intros _. right. split; [eexists; reflexivity|]. split; [reflexivity|].
        apply orb_true_iff. left. apply (js_parseFloat_throws number_to_string parseFloat).
        eexists. exact El.
    + split; [intros [m H]; discriminate|].
      intros [H|[_ [H _]]]; [discriminate|]. congruence.
Qed.

Lemma parse_stop_entries_throws (number_to_string : Z -> Z -> string)
  (parseFloat : string -> float) xs :
  (exists m, parse_stop_entries number_to_string parseFloat xs = Throw m) <->
  Exists entry_throws xs.
Proof.
  induction xs as [|x xs IH]; simpl.
  - split; [intros [m Hm]; discriminate | intros H; inversion H].
  - rewrite Exists_cons, <- (parse_stop_entry_throws number_to_string parseFloat x), <- IH.
    destruct (parse_stop_entry number_to_string parseFloat x) as [o|m].
    + destruct (parse_stop_entries number_to_string parseFloat xs) as [l|m].
      * split; [intros [m Hm]; discriminate|].
        intros [[m H]|[m H]]; discriminate.
      * split; [intros _; right; eexists; reflexivity | intros _; eexists; reflexivity].
    + split; [intros _; left; eexists; reflexivity | intros _; eexists; reflexivity].
Qed.

(** X20: [parseBusStops] throws exactly when it is given an array with a
    [null] entry or an object entry (with a name and coordinates) whose
    [latitude] or [longitude] cannot be converted to a string; any other
    input, including a value that is not an array, gives a list of
    stops. *)
Theorem parseBusStops_throws_iff :
  forall (number_to_string : Z -> Z -> string) (parseFloat : string -> float)
         (rawStops : jsval),
    (exists m, parseBusStops number_to_string parseFloat rawStops = Throw m) <->
    exists xs, rawStops = JArr xs /\ Exists entry_throws xs.
Proof.
  intros number_to_string parseFloat rawStops. destruct rawStops; simpl;
    try (split; [intros [msg Hmsg]; discriminate | intros [ys [Hys _]]; discriminate]).
  rewrite parse_stop_entries_throws. split.
  - intros H. exists xs. split; [reflexivity|exact H].
  - intros [ys [Hys H]]. injection Hys as <-. exact H.
Qed.

Definition is_string (v : jsval) : bool :=
  match v with JStr _ => true | _ => false end.

Definition string_stop_ok (p : parsed_stop) : Prop :=
  PrimFloat.is_nan (ps_latitude p) = false /\
  PrimFloat.is_nan (ps_longitude p) = false /\
  exists n, ps_name p = JStr n /\ trim n = n.

(** X21: [parseBusStops] pushes at most one stop per entry, and when every
    entry is a string, every stop has a trimmed string name and numeric
    (not NaN) coordinates. *)
Theorem parseBusStops_string_entries :
  forall (number_to_string : Z -> Z -> string) (parseFloat : string -> float)
         (xs : list jsval) (stops : list parsed_stop),
    parseBusStops number_to_string parseFloat (JArr xs) = Ok stops ->
    length stops <= length xs /\
    (Forall (fun v => is_string v = true) xs -> Forall string_stop_ok stops).
Proof.
  intros number_to_string parseFloat xs. simpl.
  induction xs as [|x xs IH]; intros stops H; simpl in H.
  - injection H as <-. split; [simpl; lia | intros _; constructor].
  - destruct (parse_stop_entry number_to_string parseFloat x) as [o|m] eqn:Hx; [|discriminate].
    destruct (parse_stop_entries number_to_string parseFloat xs) as [l|m]; [|discriminate].
    injection H as <-. destruct (IH l eq_refl) as [Hlen Hok].
    split.
    + rewrite length_app. destruct o; simpl; lia.
    + intros Hs. inversion Hs as [|? ? Hxs Hrest]; subst.
      apply Forall_app. split; [|exact (Hok Hrest)].
      destruct o as [p|]; [|constructor]. constructor; [|constructor].
      destruct x; try discriminate. unfold parse_stop_entry, js_parseFloat in Hx. simpl in Hx.
      destruct (includes s ":"); [|discriminate].
      destruct (split_on _ s) as [|name [|coords ?]]; try discriminate.
      destruct (split_on "," coords) as [|p0 [|p1 ps]]; simpl in Hx;
      destruct (negb _ && negb _) eqn:Hn; try discriminate;
      (injection Hx as <-; apply andb_true_iff in Hn as [H1 H2];
       apply negb_true_iff in H1, H2;
       split; [exact H1|]; split; [exact H2|];
       eexists; split; [reflexivity|apply trim_trim]).
Qed.

Lemma store_ok_empty (userId : string) : store_ok ∅ userId.
Proof. intros c Hc. rewrite lookup_empty in Hc. discriminate. Qed.

Lemma get_conversation_recent_history_witness :
  store_ok ∅ "u" /\
  exists s, get_conversation ∅ "u" 7 = (<[ "u" := new_context "u" 7 ]> ∅, Ok (s, JArr [], true))
            /\ su_messageCount s = JNum 0 0.
Proof.
  split; [apply store_ok_empty|].
  apply (proj2 (get_conversation_recent_history ∅ "u" 7 (store_ok_empty "u"))).
  reflexivity.
Defined.

Lemma addToConversationHistory_appends_both_histories_witness :
  store_ok ∅ "u" /\
  exists st' c' conv,
    addToConversationHistory ∅ "u" (JStr "hi") (JStr "hello") 7 "t" = Ok st' /\
    st' !! "u" = Some c' /\
    obj_get c' "conversationHistory" = Some (JArr conv) /\
    last conv = Some (conversation_entry (JStr "hi") (JStr "hello") 7).
Proof.
  split; [apply store_ok_empty|].
  destruct (addToConversationHistory_appends_both_histories ∅ "u" (JStr "hi") (JStr "hello") 7 "t"
              (store_ok_empty "u")) as [st' [c' [conv [H1 [H2 [_ [H4 [_ [H6 _]]]]]]]]].
  exists st', c', conv. split; [exact H1|]. split; [exact H2|]. split; [exact H4|exact H6].
Defined.

Lemma ai_chat_message_records_exchange_twice_witness :
  store_ok ∅ "u" /\ (9 - 1 <= maxContextAge)%Z /\
  exists st1 st2 s,
    ai_chat_before ∅ "u" (JStr "hi") JNull JNull JNull JNull 1 "t1" = Ok st1 /\
    ai_chat_after st1 "u" (JStr "hi") (JStr "hello") 9 "t2" = Ok (st2, s) /\
    su_messageCount s = JNum 4 0.
Proof.
  assert (Ht : (9 - 1 <= maxContextAge)%Z) by (unfold maxContextAge; lia).
  split; [apply store_ok_empty|]. split; [exact Ht|].
  destruct (ai_chat_message_records_exchange_twice ∅ "u" (JStr "hi") JNull JNull JNull JNull
              (JStr "hello") 1 "t1" 9 "t2" (store_ok_empty "u") Ht)
    as [st1 [st2 [s [H1 [H2 [_ H4]]]]]].
  exists st1, st2, s. split; [exact H1|]. split; [exact H2|].
  rewrite H4. reflexivity.
Defined.

Definition witness_snapshot : snapshot :=
  mk_snapshot [] []
    [("k", [mk_stop "Alpha" 1%float 1%float; mk_stop "ALPHA" 2%float 2%float;
            mk_stop "Beta" 3%float 3%float])]
    (Some (mk_location 1%float 1%float)).

Lemma find_nearest_stops_count_witness :
  find_nearest_stops (fun x => x) (fun x => x) (fun a _ => a) (fun _ => "x") (fun _ => "d")
    None witness_snapshot
  = Stops [mk_nearest "Alpha" "d" "x, x"; mk_nearest "Beta" "d" "x, x"] /\
  length [mk_nearest "Alpha" "d" "x, x"; mk_nearest "Beta" "d" "x, x"] = 2.
Proof.
  assert (H : find_nearest_stops (fun x => x) (fun x => x) (fun a _ => a) (fun _ => "x")
                (fun _ => "d") None witness_snapshot
              = Stops [mk_nearest "Alpha" "d" "x, x"; mk_nearest "Beta" "d" "x, x"])
    by (vm_compute; reflexivity).
  split; [exact H|].
  rewrite (find_nearest_stops_count _ _ _ _ _ None witness_snapshot _ H). vm_compute. reflexivity.
Defined.

Lemma find_nearest_stops_distinct_names_witness :
  find_nearest_stops (fun x => x) (fun x => x) (fun a _ => a) (fun _ => "x") (fun _ => "d")
    None witness_snapshot
  = Stops [mk_nearest "Alpha" "d" "x, x"; mk_nearest "Beta" "d" "x, x"] /\
  NoDup (map (fun e => toLowerCase (n_name e))
           [mk_nearest "Alpha" "d" "x, x"; mk_nearest "Beta" "d" "x, x"]).
Proof.
  assert (H : find_nearest_stops (fun x => x) (fun x => x) (fun a _ => a) (fun _ => "x")
                (fun _ => "d") None witness_snapshot
              = Stops [mk_nearest "Alpha" "d" "x, x"; mk_nearest "Beta" "d" "x, x"])
    by (vm_compute; reflexivity).
  split; [exact H|exact (find_nearest_stops_distinct_names _ _ _ _ _ None witness_snapshot _ H)].
Defined.

Lemma parseBusStops_string_entries_witness :
  parseBusStops (fun _ _ => "0") (fun _ => 1%float) (JArr [JStr " Alpha :1,2"; JStr "Beta"; JStr "Gamma:3"])
  = Ok [mk_parsed_stop (JStr "Alpha") 1%float 1%float;
        mk_parsed_stop (JStr "Gamma") 1%float 1%float] /\
  Forall string_stop_ok [mk_parsed_stop (JStr "Alpha") 1%float 1%float;
                         mk_parsed_stop (JStr "Gamma") 1%float 1%float].
Proof.
  assert (H : parseBusStops (fun _ _ => "0") (fun _ => 1%float) (JArr [JStr " Alpha :1,2"; JStr "Beta"; JStr "Gamma:3"])
              = Ok [mk_parsed_stop (JStr "Alpha") 1%float 1%float;
                    mk_parsed_stop (JStr "Gamma") 1%float 1%float])
    by (vm_compute; reflexivity).
  split; [exact H|].
  apply (proj2 (parseBusStops_string_entries _ _ _ _ H)).
  repeat constructor.
Defined.
